(** * Platform: filesystem helpers, search-scope resolution and worker lifecycle

    A shallow embedding of [platform/platform.cpp].  The operating system is
    not part of that file: directory listing, file-type queries, deletion
    and the existence test are primitives supplied per platform.  They are
    abstracted here as operations on a filesystem state, and every function
    of the file is written over them the way the C++ is written. *)

From Stdlib Require Import String Ascii List ZArith Lia Bool Arith.
Import ListNotations.

Local Open Scope string_scope.
Local Open Scope list_scope.

(** ** Enumerations *)

(** [Platform::EError], in the order of [DebugPrint(Platform::EError)]. *)
Inductive EError : Set :=
| ERR_OK
| ERR_FILE_DOES_NOT_EXIST
| ERR_ACCESS_FAILED
| ERR_DIRECTORY_NOT_EMPTY
| ERR_FILE_ALREADY_EXISTS
| ERR_NAME_TOO_LONG
| ERR_NOT_A_DIRECTORY
| ERR_SYMLINK_LOOP
| ERR_IO_ERROR
| ERR_UNKNOWN.

Definition EError_eqb (a b : EError) : bool :=
  match a, b with
  | ERR_OK, ERR_OK
  | ERR_FILE_DOES_NOT_EXIST, ERR_FILE_DOES_NOT_EXIST
  | ERR_ACCESS_FAILED, ERR_ACCESS_FAILED
  | ERR_DIRECTORY_NOT_EMPTY, ERR_DIRECTORY_NOT_EMPTY
  | ERR_FILE_ALREADY_EXISTS, ERR_FILE_ALREADY_EXISTS
  | ERR_NAME_TOO_LONG, ERR_NAME_TOO_LONG
  | ERR_NOT_A_DIRECTORY, ERR_NOT_A_DIRECTORY
  | ERR_SYMLINK_LOOP, ERR_SYMLINK_LOOP
  | ERR_IO_ERROR, ERR_IO_ERROR
  | ERR_UNKNOWN, ERR_UNKNOWN => true
  | _, _ => false
  end.

(** Modelled from the spec: [enum Platform::EFileType] is declared in
    platform.hpp, which is not part of the sources at hand.  The spec calls
    it a "closed enumeration with bitmask semantics for filtering"; each
    member is one bit of the mask. *)
Inductive EFileType : Set :=
| FILE_TYPE_UNKNOWN
| FILE_TYPE_REGULAR
| FILE_TYPE_DIRECTORY.

Definition EFileType_bits (t : EFileType) : Z :=
  match t with
  | FILE_TYPE_UNKNOWN => 1
  | FILE_TYPE_REGULAR => 2
  | FILE_TYPE_DIRECTORY => 4
  end.

Definition EFileType_eqb (a b : EFileType) : bool :=
  match a, b with
  | FILE_TYPE_UNKNOWN, FILE_TYPE_UNKNOWN
  | FILE_TYPE_REGULAR, FILE_TYPE_REGULAR
  | FILE_TYPE_DIRECTORY, FILE_TYPE_DIRECTORY => true
  | _, _ => false
  end.

(** ** Outcomes of a call

    A call returns, or the process is terminated by a failed [CHECK] /
    [ASSERT], or an exception is thrown with [MYTHROW]. *)

Inductive Exception : Set :=
| FileAbsentException (msg : list string).

Inductive outcome (A : Type) : Type :=
| Ret (a : A)
| Fatal (diagnostic : list string)
| Raise (e : Exception).

Arguments Ret {A} a.
Arguments Fatal {A} diagnostic.
Arguments Raise {A} e.

(** ** Platform::ErrnoToError *)

Section Errno.

(** The values of the <errno.h> macros belong to the C library, not to
    the repository; the function is written over their values. *)
Variables ENOENT EACCES ENOTEMPTY EEXIST ENAMETOOLONG ENOTDIR ELOOP EIO : Z.

Definition errno_labels : list Z :=
  [ENOENT; EACCES; ENOTEMPTY; EEXIST; ENAMETOOLONG; ENOTDIR; ELOOP; EIO].

Definition ErrnoToError (errno : Z) : EError :=
  if (errno =? ENOENT)%Z then ERR_FILE_DOES_NOT_EXIST
  else if (errno =? EACCES)%Z then ERR_ACCESS_FAILED
  else if (errno =? ENOTEMPTY)%Z then ERR_DIRECTORY_NOT_EMPTY
  else if (errno =? EEXIST)%Z then ERR_FILE_ALREADY_EXISTS
  else if (errno =? ENAMETOOLONG)%Z then ERR_NAME_TOO_LONG
  else if (errno =? ENOTDIR)%Z then ERR_NOT_A_DIRECTORY
  else if (errno =? ELOOP)%Z then ERR_SYMLINK_LOOP
  else if (errno =? EIO)%Z then ERR_IO_ERROR
  else ERR_UNKNOWN.

(** The mapping table as the spec documents it. *)
Definition errno_table : list (Z * EError) :=
  [ (ENOENT, ERR_FILE_DOES_NOT_EXIST);
    (EACCES, ERR_ACCESS_FAILED);
    (ENOTEMPTY, ERR_DIRECTORY_NOT_EMPTY);
    (EEXIST, ERR_FILE_ALREADY_EXISTS);
    (ENAMETOOLONG, ERR_NAME_TOO_LONG);
    (ENOTDIR, ERR_NOT_A_DIRECTORY);
    (ELOOP, ERR_SYMLINK_LOOP);
    (EIO, ERR_IO_ERROR) ].

End Errno.

(** ** Paths *)

Definition kSeparator : ascii := "/"%char.

Fixpoint ends_with_separator (s : string) : bool :=
  match s with
  | EmptyString => false
  | String c EmptyString => Ascii.eqb c kSeparator
  | String _ rest => ends_with_separator rest
  end.

(** Modelled from the spec: [my::AddSlashIfNeeded] lives in
    coding/file_name_utils, which is not part of the sources at hand.  It
    returns its argument when that already ends in the path separator and
    appends the separator otherwise. *)
Definition AddSlashIfNeeded (path : string) : string :=
  if ends_with_separator path then path else path ++ String kSeparator "".

(** Modelled from the spec: [my::JoinFoldersToPath] (coding/file_name_utils,
    not part of the sources at hand) puts an entry name, "relative to its
    parent directory", behind that directory. *)
Definition JoinFoldersToPath (folder file : string) : string :=
  AddSlashIfNeeded folder ++ file.

(** Modelled from the spec: [my::JoinPath] (same missing file) joins the
    components of a "full relative path"; an empty leading folder adds
    nothing. *)
Definition JoinPath (folder file : string) : string :=
  match folder with
  | EmptyString => file
  | _ => AddSlashIfNeeded folder ++ file
  end.

Definition IsSpecialDirName (dirName : string) : bool :=
  String.eqb dirName "." || String.eqb dirName "..".

Fixpoint has_separator (s : string) : bool :=
  match s with
  | EmptyString => false
  | String c rest => Ascii.eqb c kSeparator || has_separator rest
  end.

(** ** The platform object *)

(** Modelled from the spec: [base::WorkerThread] is declared outside the
    sources at hand; a handle is all that the lifecycle functions see. *)
Record WorkerThread : Set := { wt_joined : bool }.

Definition make_WorkerThread : WorkerThread := {| wt_joined := false |}.
Definition ShutdownAndJoin (w : WorkerThread) : WorkerThread := {| wt_joined := true |}.

Record Platform : Set := {
  m_writableDir : string;
  m_resourcesDir : string;
  m_settingsDir : string;
  m_networkThread : option WorkerThread;
  m_fileThread : option WorkerThread;
  m_backgroundThread : option WorkerThread
}.

Definition SetSettingsDir (path : string) (p : Platform) : Platform :=
  {| m_writableDir := m_writableDir p;
     m_resourcesDir := m_resourcesDir p;
     m_settingsDir := AddSlashIfNeeded path;
     m_networkThread := m_networkThread p;
     m_fileThread := m_fileThread p;
     m_backgroundThread := m_backgroundThread p |}.

Definition SetWritableDirForTests (path : string) (p : Platform) : Platform :=
  {| m_writableDir := AddSlashIfNeeded path;
     m_resourcesDir := m_resourcesDir p;
     m_settingsDir := m_settingsDir p;
     m_networkThread := m_networkThread p;
     m_fileThread := m_fileThread p;
     m_backgroundThread := m_backgroundThread p |}.

Definition SetResourceDir (path : string) (p : Platform) : Platform :=
  {| m_writableDir := m_writableDir p;
     m_resourcesDir := AddSlashIfNeeded path;
     m_settingsDir := m_settingsDir p;
     m_networkThread := m_networkThread p;
     m_fileThread := m_fileThread p;
     m_backgroundThread := m_backgroundThread p |}.

(** ** Worker lifecycle *)

Definition is_some {A : Type} (o : option A) : bool :=
  match o with Some _ => true | None => false end.

(** Modelled from the spec: the [ASSERT] macro (base/assert.hpp, not part of
    the sources at hand) is a "fatal assertion": a false condition ends the
    process. *)
Definition ASSERT {A : Type} (cond : bool) (k : outcome A) : outcome A :=
  if cond then k else Fatal ["ASSERT"].

Definition ShutdownThreads (p : Platform) : outcome Platform :=
  ASSERT (is_some (m_networkThread p) && is_some (m_fileThread p)
          && is_some (m_backgroundThread p))
    (let network := option_map ShutdownAndJoin (m_networkThread p) in
     let file := option_map ShutdownAndJoin (m_fileThread p) in
     let background := option_map ShutdownAndJoin (m_backgroundThread p) in
     Ret {| m_writableDir := m_writableDir p;
            m_resourcesDir := m_resourcesDir p;
            m_settingsDir := m_settingsDir p;
            m_networkThread := None;
            m_fileThread := None;
            m_backgroundThread := None |}).

Definition RunThreads (p : Platform) : outcome Platform :=
  ASSERT (negb (is_some (m_networkThread p)) && negb (is_some (m_fileThread p))
          && negb (is_some (m_backgroundThread p)))
    (Ret {| m_writableDir := m_writableDir p;
            m_resourcesDir := m_resourcesDir p;
            m_settingsDir := m_settingsDir p;
            m_networkThread := Some make_WorkerThread;
            m_fileThread := Some make_WorkerThread;
            m_backgroundThread := Some make_WorkerThread |}).

(** ** Regular expressions for directory listings

    Modelled from the spec: [Platform::GetFilesByRegExp] is implemented per
    platform, outside the sources at hand; its contract is that it "returns
    all entries whose name matches pattern".  The patterns built in
    platform.cpp use literal characters, the escape of a syntax character,
    the wildcard [.], postfix repetition and the anchors; that fragment of
    the ECMAScript grammar is interpreted here, with search semantics (a
    match may start anywhere in the name).  A pattern outside the fragment
    is rejected and matches nothing. *)

Module Regex.

Inductive atom : Set :=
| AnyChar
| Lit (c : ascii).

Inductive quantifier : Set := QStar | QPlus | QOpt.

Inductive token : Set :=
| TAtom (a : atom)
| TQuant (q : quantifier)
| TBol
| TEol.

Inductive item : Set :=
| One (a : atom)
| Rep (q : quantifier) (a : atom)
| Eol.

(** The syntax characters of the pattern grammar. *)
Definition syntax_chars : list ascii :=
  list_ascii_of_string "\.*+?^$()[]{}|".

Definition is_syntax_char (c : ascii) : bool :=
  existsb (Ascii.eqb c) syntax_chars.

Fixpoint tokenize (re : string) : option (list token) :=
  match re with
  | EmptyString => Some []
  | String c rest =>
      if Ascii.eqb c "\"%char then
        match rest with
        | EmptyString => None
        | String d rest' =>
            if is_syntax_char d
            then option_map (cons (TAtom (Lit d))) (tokenize rest')
            else None
        end
      else if Ascii.eqb c "."%char then option_map (cons (TAtom AnyChar)) (tokenize rest)
      else if Ascii.eqb c "*"%char then option_map (cons (TQuant QStar)) (tokenize rest)
      else if Ascii.eqb c "+"%char then option_map (cons (TQuant QPlus)) (tokenize rest)
      else if Ascii.eqb c "?"%char then option_map (cons (TQuant QOpt)) (tokenize rest)
      else if Ascii.eqb c "^"%char then option_map (cons TBol) (tokenize rest)
      else if Ascii.eqb c "$"%char then option_map (cons TEol) (tokenize rest)
      else if is_syntax_char c then None
      else option_map (cons (TAtom (Lit c))) (tokenize rest)
  end.

Fixpoint parse_items (ts : list token) : option (list item) :=
  match ts with
  | [] => Some []
  | TEol :: rest => option_map (cons Eol) (parse_items rest)
  | TAtom a :: TQuant q :: rest => option_map (cons (Rep q a)) (parse_items rest)
  | TAtom a :: rest => option_map (cons (One a)) (parse_items rest)
  | TQuant _ :: _ => None
  | TBol :: _ => None
  end.

(** A compiled pattern: anchored at the start of the name or not. *)
Definition parse (re : string) : option (bool * list item) :=
  match tokenize re with
  | None => None
  | Some (TBol :: ts) => option_map (pair true) (parse_items ts)
  | Some ts => option_map (pair false) (parse_items ts)
  end.

(** The wildcard matches every character but a line terminator. *)
Definition atom_matches (a : atom) (c : ascii) : bool :=
  match a with
  | AnyChar => negb (Ascii.eqb c "010"%char || Ascii.eqb c "013"%char)
  | Lit d => Ascii.eqb c d
  end.

Fixpoint match_star (a : atom) (k : string -> bool) (text : string) : bool :=
  k text ||
  match text with
  | EmptyString => false
  | String c rest => atom_matches a c && match_star a k rest
  end.

Fixpoint match_here (items : list item) (text : string) : bool :=
  match items with
  | [] => true
  | Eol :: rest =>
      match text with
      | EmptyString => match_here rest text
      | String _ _ => false
      end
  | One a :: rest =>
      match text with
      | EmptyString => false
      | String c text' => atom_matches a c && match_here rest text'
      end
  | Rep QStar a :: rest => match_star a (match_here rest) text
  | Rep QPlus a :: rest =>
      match text with
      | EmptyString => false
      | String c text' => atom_matches a c && match_star a (match_here rest) text'
      end
  | Rep QOpt a :: rest =>
      match_here rest text ||
      match text with
      | EmptyString => false
      | String c text' => atom_matches a c && match_here rest text'
      end
  end.

Fixpoint search_from (items : list item) (text : string) : bool :=
  match_here items text ||
  match text with
  | EmptyString => false
  | String _ rest => search_from items rest
  end.

Definition regex_search (re name : string) : bool :=
  match parse re with
  | None => false
  | Some (true, items) => match_here items name
  | Some (false, items) => search_from items name
  end.

End Regex.

(** ** The platform-specific primitives

    [Platform::GetFileType], [Platform::RmDir],
    [Platform::IsFileExistsByFullPath], [my::DeleteFileX] and the directory
    iteration behind [Platform::GetFilesByRegExp] are implemented once per
    operating system.  platform.cpp is written against their signatures
    only, and so is everything below: an implementation is any instance of
    this interface.  [GetFileType] returns the error code together with the
    value of its output parameter, which the callers read only when the
    code is [ERR_OK]. *)

Class PlatformImpl : Type := {
  FS : Type;
  ReadDir : string -> FS -> list string;
  GetFileType : string -> FS -> EError * EFileType;
  DeleteFileX : string -> FS -> bool * FS;
  RmDir : string -> FS -> EError * FS;
  IsFileExistsByFullPath : string -> FS -> bool
}.

(** What a run does to the filesystem, in order. *)
Inductive event : Set :=
| EvList (directory regexp : string)
| EvFileType (path : string) (result : EError * EFileType)
| EvDeleteFile (path : string) (ok : bool)
| EvRmDir (path : string) (result : EError).

Definition FilesList : Set := list string.
Definition TFilesWithType : Set := list (string * EFileType).

Section Operations.

Context {impl : PlatformImpl}.

(** Modelled from the spec: [Platform::GetFilesByRegExp] appends to its
    output "all entries whose name matches pattern"; the raw iteration of
    a directory may yield the pseudo-entries. *)
Definition GetFilesByRegExp (directory regexp : string) (fs : FS)
    (outFiles : FilesList) : FilesList :=
  outFiles ++ filter (Regex.regex_search regexp) (ReadDir directory fs).

(** *** Platform::GetFilesByExt *)

Definition first_char_is (c : ascii) (s : string) : bool :=
  match s with
  | EmptyString => false
  | String d _ => Ascii.eqb d c
  end.

Definition ext_to_regexp (ext : string) : string :=
  String "\"%char (ext ++ "$").

Definition GetFilesByExt (directory ext : string) (fs : FS)
    (outFiles : FilesList) : outcome FilesList :=
  ASSERT (negb (String.eqb ext ""))
    (ASSERT (first_char_is "."%char ext)
       (Ret (GetFilesByRegExp directory (ext_to_regexp ext) fs outFiles))).

(** *** Platform::GetFilesByType *)

Definition GetFilesByType_step (directory : string) (typeMask : Z) (fs : FS)
    (outFiles : TFilesWithType) (file : string) : TFilesWithType :=
  let '(err, type) := GetFileType (JoinFoldersToPath directory file) fs in
  if negb (EError_eqb err ERR_OK) then outFiles
  else if negb (Z.land typeMask (EFileType_bits type) =? 0)%Z
       then outFiles ++ [(file, type)]
       else outFiles.

Definition GetFilesByType (directory : string) (typeMask : Z) (fs : FS)
    (outFiles : TFilesWithType) : TFilesWithType :=
  let allFiles := GetFilesByRegExp directory ".*" fs [] in
  fold_left (GetFilesByType_step directory typeMask fs) allFiles outFiles.

(** *** Platform::IsDirectory *)

Definition IsDirectory (path : string) (fs : FS) : bool :=
  let '(err, fileType) := GetFileType path fs in
  if negb (EError_eqb err ERR_OK) then false
  else EFileType_eqb fileType FILE_TYPE_DIRECTORY.

(** *** Platform::ReadPathForFile *)

(** The [switch] of the loop body; [None] is its [default] label. *)
Definition scope_candidate (p : Platform) (file : string) (c : ascii)
    : option string :=
  if Ascii.eqb c "w"%char then Some (m_writableDir p ++ file)%string
  else if Ascii.eqb c "r"%char then Some (m_resourcesDir p ++ file)%string
  else if Ascii.eqb c "s"%char then Some (m_settingsDir p ++ file)%string
  else if Ascii.eqb c "f"%char then Some file
  else None.

Definition possiblePaths (p : Platform) : string :=
  m_writableDir p ++ String "010"%char (m_resourcesDir p)
                  ++ String "010"%char (m_settingsDir p).

Fixpoint ReadPathForFile_loop (p : Platform) (fs : FS) (file searchScope : string)
    (rest : string) : outcome string :=
  match rest with
  | EmptyString =>
      Raise (FileAbsentException
               ["File"; file; "doesn't exist in the scope"; searchScope;
                ("Have been looking in:" ++ String "010"%char "")%string;
                possiblePaths p])
  | String c rest' =>
      match scope_candidate p file c with
      | None => Fatal ["Unsupported searchScope:"; searchScope]
      | Some fullPath =>
          if IsFileExistsByFullPath fullPath fs then Ret fullPath
          else ReadPathForFile_loop p fs file searchScope rest'
      end
  end.

Definition ReadPathForFile (p : Platform) (fs : FS) (file searchScope : string)
    : outcome string :=
  let searchScope := if String.eqb searchScope "" then "wrf" else searchScope in
  ReadPathForFile_loop p fs file searchScope searchScope.

(** *** Platform::RmDirRecursively

    The function changes the filesystem and calls itself on what it finds
    there, so it is run with an amount of fuel that bounds the nesting of
    the calls; [None] means that the fuel did not suffice.  A run yields
    its return value, the filesystem it leaves and the events it caused. *)

Definition run (A : Type) : Type := option (A * FS * list event).

Definition RmDir_visit (rec : string -> FS -> run bool) (dirName file : string)
    (res : bool) (fs : FS) : run bool :=
  let path := JoinFoldersToPath dirName file in
  let '(err, type) := GetFileType path fs in
  let queried := EvFileType path (err, type) in
  if negb (EError_eqb err ERR_OK) then Some (res, fs, [queried])
  else if EFileType_eqb type FILE_TYPE_DIRECTORY then
    if IsSpecialDirName file then Some (res, fs, [queried])
    else
      match rec path fs with
      | None => None
      | Some (ok, fs', evs) =>
          Some (if negb ok then false else res, fs', queried :: evs)
      end
  else
    let '(ok, fs') := DeleteFileX path fs in
    Some (if negb ok then false else res, fs', [queried; EvDeleteFile path ok]).

Fixpoint RmDir_loop (rec : string -> FS -> run bool) (dirName : string)
    (allFiles : list string) (res : bool) (fs : FS) : run bool :=
  match allFiles with
  | [] => Some (res, fs, [])
  | file :: rest =>
      match RmDir_visit rec dirName file res fs with
      | None => None
      | Some (res1, fs1, evs1) =>
          match RmDir_loop rec dirName rest res1 fs1 with
          | None => None
          | Some (res2, fs2, evs2) => Some (res2, fs2, evs1 ++ evs2)
          end
      end
  end.

Fixpoint RmDirRecursively (fuel : nat) (dirName : string) (fs : FS) : run bool :=
  if String.eqb dirName "" || IsSpecialDirName dirName then Some (false, fs, [])
  else
    match fuel with
    | O => None
    | S fuel' =>
        let allFiles := GetFilesByRegExp dirName ".*" fs [] in
        match RmDir_loop (RmDirRecursively fuel') dirName allFiles true fs with
        | None => None
        | Some (res, fs1, evs) =>
            let '(err, fs2) := RmDir dirName fs1 in
            Some (if negb (EError_eqb err ERR_OK) then false else res, fs2,
                  EvList dirName ".*" :: evs ++ [EvRmDir dirName err])
        end
    end.

(** *** Platform::GetFilesRecursively

    Nothing is changed here, so the filesystem is a plain argument; the
    fuel bounds the nesting of the calls as before.  [CHECK_EQUAL] ends
    the process when its operands differ. *)

Fixpoint push_files (directory : string) (files : TFilesWithType)
    (filesList : FilesList) : outcome FilesList :=
  match files with
  | [] => Ret filesList
  | (file, type) :: rest =>
      if EFileType_eqb type FILE_TYPE_REGULAR
      then push_files directory rest (filesList ++ [JoinPath directory file])
      else Fatal ["CHECK_EQUAL"; "dir:"; directory; "file:"; file]
  end.

Fixpoint recurse_subdirs (rec : string -> FilesList -> option (outcome FilesList))
    (directory : string) (subdirs : TFilesWithType) (filesList : FilesList)
    : option (outcome FilesList) :=
  match subdirs with
  | [] => Some (Ret filesList)
  | (subdir, type) :: rest =>
      if negb (EFileType_eqb type FILE_TYPE_DIRECTORY)
      then Some (Fatal ["CHECK_EQUAL"; "dir:"; directory; "subdir:"; subdir])
      else if String.eqb subdir "." || String.eqb subdir ".."
      then recurse_subdirs rec directory rest filesList
      else
        match rec (JoinPath directory subdir) filesList with
        | None => None
        | Some (Ret filesList') => recurse_subdirs rec directory rest filesList'
        | Some stopped => Some stopped
        end
  end.

Fixpoint GetFilesRecursively (fuel : nat) (directory : string) (fs : FS)
    (filesList : FilesList) : option (outcome FilesList) :=
  match fuel with
  | O => None
  | S fuel' =>
      let files := GetFilesByType directory (EFileType_bits FILE_TYPE_REGULAR) fs [] in
      match push_files directory files filesList with
      | Ret filesList1 =>
          let subdirs :=
            GetFilesByType directory (EFileType_bits FILE_TYPE_DIRECTORY) fs [] in
          recurse_subdirs (fun d l => GetFilesRecursively fuel' d fs l)
            directory subdirs filesList1
      | stopped => Some stopped
      end
  end.

End Operations.

(** ** A filesystem to run the functions on

    One implementation of the primitives, small enough to evaluate: the
    filesystem is the list of its entries, each with the directory it is
    listed under.  A locked entry cannot be deleted; a path longer than
    [path_max] is refused with [ERR_NAME_TOO_LONG], as a POSIX system does. *)

Module ListFS.

Record Node : Set := {
  n_dir : string;
  n_name : string;
  n_type : EFileType;
  n_locked : bool
}.

Definition path_max : nat := 4096.

Definition node_path (n : Node) : string := JoinPath (n_dir n) (n_name n).

Definition at_path (path : string) (n : Node) : bool :=
  String.eqb (node_path n) path.

Definition listed_under (directory : string) (n : Node) : bool :=
  String.eqb (n_dir n) directory && negb (String.eqb (n_name n) "").

(** The pseudo-entries do not keep a directory from being removed. *)
Definition is_child (directory : string) (n : Node) : bool :=
  listed_under directory n && negb (IsSpecialDirName (n_name n)).

Definition read_dir (directory : string) (fs : list Node) : list string :=
  map n_name (filter (listed_under directory) fs).

Definition get_file_type (path : string) (fs : list Node) : EError * EFileType :=
  if Nat.ltb path_max (String.length path) then (ERR_NAME_TOO_LONG, FILE_TYPE_UNKNOWN)
  else
    match find (at_path path) fs with
    | Some n => (ERR_OK, n_type n)
    | None => (ERR_FILE_DOES_NOT_EXIST, FILE_TYPE_UNKNOWN)
    end.

Definition unlink (path : string) (fs : list Node) : list Node :=
  filter (fun n => negb (at_path path n)) fs.

Definition delete_file (path : string) (fs : list Node) : bool * list Node :=
  match find (at_path path) fs with
  | Some n =>
      if n_locked n || EFileType_eqb (n_type n) FILE_TYPE_DIRECTORY
      then (false, fs)
      else (true, unlink path fs)
  | None => (false, fs)
  end.

Definition rm_dir (path : string) (fs : list Node) : EError * list Node :=
  match find (at_path path) fs with
  | None => (ERR_FILE_DOES_NOT_EXIST, fs)
  | Some n =>
      if negb (EFileType_eqb (n_type n) FILE_TYPE_DIRECTORY)
      then (ERR_NOT_A_DIRECTORY, fs)
      else if existsb (is_child path) fs then (ERR_DIRECTORY_NOT_EMPTY, fs)
      else if n_locked n then (ERR_ACCESS_FAILED, fs)
      else (ERR_OK, filter (fun m => negb (String.eqb (n_dir m) path)) (unlink path fs))
  end.

Definition file_exists (path : string) (fs : list Node) : bool :=
  existsb (at_path path) fs.

Definition impl : PlatformImpl := {|
  FS := list Node;
  ReadDir := read_dir;
  GetFileType := get_file_type;
  DeleteFileX := delete_file;
  RmDir := rm_dir;
  IsFileExistsByFullPath := file_exists
|}.

Definition dir (parent name : string) : Node :=
  {| n_dir := parent; n_name := name; n_type := FILE_TYPE_DIRECTORY; n_locked := false |}.

Definition file (parent name : string) : Node :=
  {| n_dir := parent; n_name := name; n_type := FILE_TYPE_REGULAR; n_locked := false |}.

Definition locked_file (parent name : string) : Node :=
  {| n_dir := parent; n_name := name; n_type := FILE_TYPE_REGULAR; n_locked := true |}.

(** root/{a.txt, sub/{b.txt}}, with the pseudo-entries a raw iteration
    yields. *)
Definition sample_tree : list Node :=
  [ dir "" "root";
    dir "root" "."; dir "root" "..";
    file "root" "a.txt";
    dir "root" "sub";
    dir "root/sub" "."; dir "root/sub" "..";
    file "root/sub" "b.txt" ].

(** The same tree with one file that cannot be deleted, listed first. *)
Definition locked_tree : list Node :=
  [ dir "" "root";
    locked_file "root" "keep.dat";
    file "root" "a.txt";
    dir "root" "sub";
    file "root/sub" "b.txt" ].

Definition maps_dir : list Node :=
  [ dir "" "maps";
    file "maps" "World.mwm";
    file "maps" "World.mwmX";
    file "maps" "World.xmwm";
    file "maps" "notes.txt";
    file "maps" "backup.tar.gz";
    file "maps" "backup.tar-gz" ].

Definition sample_platform : Platform :=
  {| m_writableDir := "writable/";
     m_resourcesDir := "resources/";
     m_settingsDir := "settings/";
     m_networkThread := None;
     m_fileThread := None;
     m_backgroundThread := None |}.

Definition both_roots : list Node :=
  [ dir "" "writable"; dir "" "resources";
    file "writable" "countries.txt";
    file "resources" "countries.txt" ].

End ListFS.

(** ** Specification-side definitions

    The notions the specification speaks in, written from its words; the
    theorems below relate the functions above to them. *)

Definition is_scope_char (c : ascii) : bool :=
  Ascii.eqb c "w"%char || Ascii.eqb c "r"%char
  || Ascii.eqb c "s"%char || Ascii.eqb c "f"%char.

Fixpoint scope_chars_ok (scope : string) : bool :=
  match scope with
  | EmptyString => true
  | String c rest => is_scope_char c && scope_chars_ok rest
  end.

Definition default_scope (scope : string) : string :=
  if String.eqb scope "" then "wrf" else scope.

(** "the corresponding root plus fileName (or fileName verbatim for the
    absolute-path scope)" *)
Definition scope_root (p : Platform) (c : ascii) : string :=
  if Ascii.eqb c "w"%char then m_writableDir p
  else if Ascii.eqb c "r"%char then m_resourcesDir p
  else if Ascii.eqb c "s"%char then m_settingsDir p
  else "".

Definition candidate_paths (p : Platform) (file scope : string) : list string :=
  map (fun c => (scope_root p c ++ file)%string) (list_ascii_of_string scope).

Definition absence_diagnostic (p : Platform) (file scope : string) : list string :=
  ["File"; file; "doesn't exist in the scope"; scope;
   ("Have been looking in:" ++ String "010"%char "")%string;
   (m_writableDir p ++ String "010"%char (m_resourcesDir p)
                    ++ String "010"%char (m_settingsDir p))%string].

(** [name] ends in the literal string [ext]. *)
Definition ends_in (ext name : string) : Prop :=
  exists stem : string, name = (stem ++ ext)%string.

Fixpoint has_suffix (ext name : string) : bool :=
  String.eqb name ext ||
  match name with
  | EmptyString => false
  | String _ rest => has_suffix ext rest
  end.

(** An extension whose characters all stand for themselves in a pattern. *)
Fixpoint plain_chars (s : string) : bool :=
  match s with
  | EmptyString => true
  | String c rest => negb (Regex.is_syntax_char c) && plain_chars rest
  end.

(** The compiled form of a pattern that spells out [s] and ends the name. *)
Definition literal_items (s : string) : list Regex.item :=
  map (fun c => Regex.One (Regex.Lit c)) (list_ascii_of_string s) ++ [Regex.Eol].

(** The invariant of the configured roots, and the part of the platform
    that the setters of the roots have no business with. *)
Definition roots_end_in_separator (p : Platform) : Prop :=
  ends_with_separator (m_writableDir p) = true /\
  ends_with_separator (m_resourcesDir p) = true /\
  ends_with_separator (m_settingsDir p) = true.

Definition worker_handles (p : Platform)
    : option WorkerThread * option WorkerThread * option WorkerThread :=
  (m_networkThread p, m_fileThread p, m_backgroundThread p).

Definition handles_exist (p : Platform) : bool * bool * bool :=
  (is_some (m_networkThread p), is_some (m_fileThread p),
   is_some (m_backgroundThread p)).

(** Every deletion attempted in a run succeeded. *)
Definition deletion_ok (e : event) : bool :=
  match e with
  | EvDeleteFile _ ok => ok
  | EvRmDir _ err => EError_eqb err ERR_OK
  | _ => true
  end.

Definition deletions_succeeded (evs : list event) : bool := forallb deletion_ok evs.

Section Walks.

Context {impl : PlatformImpl}.

(** The walk of a recursive removal as the specification describes it:
    every entry listed under the directory is taken in turn, whatever
    happened to the ones before it; an entry whose type query fails is
    skipped, a directory that is not a pseudo-entry is removed by the
    same walk, any other entry by a file deletion; the directory itself
    is removed last. *)
Inductive Removes : string -> FS -> list event -> FS -> Prop :=
| Removes_tree : forall dirName fs evs fs1 err fs2,
    dirName <> "" ->
    IsSpecialDirName dirName = false ->
    Visits dirName (ReadDir dirName fs) fs evs fs1 ->
    RmDir dirName fs1 = (err, fs2) ->
    Removes dirName fs (EvList dirName ".*" :: evs ++ [EvRmDir dirName err]) fs2

with Visits : string -> list string -> FS -> list event -> FS -> Prop :=
| Visits_done : forall dirName fs,
    Visits dirName [] fs [] fs
| Visits_skipped : forall dirName file rest fs err type evs fs',
    GetFileType (JoinFoldersToPath dirName file) fs = (err, type) ->
    err <> ERR_OK ->
    Visits dirName rest fs evs fs' ->
    Visits dirName (file :: rest) fs
      (EvFileType (JoinFoldersToPath dirName file) (err, type) :: evs) fs'
| Visits_pseudo : forall dirName file rest fs evs fs',
    GetFileType (JoinFoldersToPath dirName file) fs = (ERR_OK, FILE_TYPE_DIRECTORY) ->
    IsSpecialDirName file = true ->
    Visits dirName rest fs evs fs' ->
    Visits dirName (file :: rest) fs
      (EvFileType (JoinFoldersToPath dirName file) (ERR_OK, FILE_TYPE_DIRECTORY) :: evs) fs'
| Visits_subdir : forall dirName file rest fs evs1 fs1 evs2 fs2,
    GetFileType (JoinFoldersToPath dirName file) fs = (ERR_OK, FILE_TYPE_DIRECTORY) ->
    IsSpecialDirName file = false ->
    Removes (JoinFoldersToPath dirName file) fs evs1 fs1 ->
    Visits dirName rest fs1 evs2 fs2 ->
    Visits dirName (file :: rest) fs
      (EvFileType (JoinFoldersToPath dirName file) (ERR_OK, FILE_TYPE_DIRECTORY)
         :: evs1 ++ evs2) fs2
| Visits_file : forall dirName file rest fs type ok fs1 evs fs2,
    GetFileType (JoinFoldersToPath dirName file) fs = (ERR_OK, type) ->
    type <> FILE_TYPE_DIRECTORY ->
    DeleteFileX (JoinFoldersToPath dirName file) fs = (ok, fs1) ->
    Visits dirName rest fs1 evs fs2 ->
    Visits dirName (file :: rest) fs
      (EvFileType (JoinFoldersToPath dirName file) (ERR_OK, type)
         :: EvDeleteFile (JoinFoldersToPath dirName file) ok :: evs) fs2.

(** An entry of [directory] that the type query reports as a regular
    file, and one it reports as a directory to descend into. *)
Definition has_type (fs : FS) (directory : string) (wanted : EFileType)
    (file : string) : bool :=
  let '(err, type) := GetFileType (JoinFoldersToPath directory file) fs in
  EError_eqb err ERR_OK && EFileType_eqb type wanted.

Definition is_regular (fs : FS) (directory file : string) : bool :=
  has_type fs directory FILE_TYPE_REGULAR file.

Definition is_subdir (fs : FS) (directory file : string) : bool :=
  has_type fs directory FILE_TYPE_DIRECTORY file && negb (IsSpecialDirName file).

(** "every regular file anywhere under the root" *)
Inductive RegularUnder (fs : FS) : string -> string -> Prop :=
| Regular_here : forall directory file,
    In file (ReadDir directory fs) ->
    is_regular fs directory file = true ->
    RegularUnder fs directory (JoinPath directory file)
| Regular_below : forall directory subdir path,
    In subdir (ReadDir directory fs) ->
    is_subdir fs directory subdir = true ->
    RegularUnder fs (JoinPath directory subdir) path ->
    RegularUnder fs directory path.

(** "order = directory-then-subdirectories": the files of the directory
    in listing order, then the listing of each subdirectory in turn. *)
#[warnings="-register-all"] Inductive Listing (fs : FS) : string -> list string -> Prop :=
| Listing_dir : forall directory below,
    Forall2 (fun subdir files => Listing fs (JoinPath directory subdir) files)
            (filter (is_subdir fs directory) (ReadDir directory fs)) below ->
    Listing fs directory
      (map (JoinPath directory) (filter (is_regular fs directory) (ReadDir directory fs))
       ++ concat below).

(** What a recursive call is known to do, as far as the loop of the
    removal needs it. *)
Definition sound_call (rec : string -> FS -> run bool) : Prop :=
  forall path fs ok fs' evs,
    (String.eqb path "" || IsSpecialDirName path) = false ->
    rec path fs = Some (ok, fs', evs) ->
    Removes path fs evs fs' /\ ok = deletions_succeeded evs.

(** What a recursive call is known to yield, as far as the loop over the
    subdirectories needs it. *)
Definition listed_call (fs : FS)
    (rec : string -> FilesList -> option (outcome FilesList)) : Prop :=
  forall directory filesList res,
    rec directory filesList = Some res ->
    exists found,
      res = Ret (filesList ++ found) /\
      Listing fs directory found /\
      forall path, In path found -> RegularUnder fs directory path.

End Walks.

(** ** Further functions of platform.cpp *)

(** *** Logging

    Modelled from the spec: the [LOG] macro and its levels belong to
    base/logging.hpp, which is not part of the sources at hand.  A call
    records its level and the parts of its message; the parts are kept as
    values, since the rendering of a file type is defined elsewhere. *)

Inductive LogLevel : Set := LDEBUG | LINFO | LWARNING | LERROR | LCRITICAL.

Inductive LogArg : Set :=
| LogStr (s : string)
| LogErr (e : EError)
| LogType (t : EFileType)
| LogFiles (l : list string).

Definition LogEntry : Set := (LogLevel * list LogArg)%type.

(** *** Platform::CpuCores

    [hardware_concurrency] is what [std::thread::hardware_concurrency]
    reported, an [unsigned]. *)

Definition CpuCores (hardware_concurrency : Z) : Z :=
  let cores := hardware_concurrency in
  if (0 <? cores)%Z then cores else 1%Z.

(** *** DebugPrint *)

Definition DebugPrint_EError (err : EError) : string :=
  match err with
  | ERR_OK => "Ok"
  | ERR_FILE_DOES_NOT_EXIST => "File does not exist."
  | ERR_ACCESS_FAILED => "Access failed."
  | ERR_DIRECTORY_NOT_EMPTY => "Directory not empty."
  | ERR_FILE_ALREADY_EXISTS => "File already exists."
  | ERR_NAME_TOO_LONG =>
      "The length of a component of path exceeds {NAME_MAX} characters."
  | ERR_NOT_A_DIRECTORY =>
      "A component of the path prefix of Path is not a directory."
  | ERR_SYMLINK_LOOP =>
      "Too many symbolic links were encountered in translating path."
  | ERR_IO_ERROR => "An I/O error occurred."
  | ERR_UNKNOWN => "Unknown"
  end.

(** [Platform::ChargingStatus], as [DebugPrint(Platform::ChargingStatus)]
    enumerates it. *)
Inductive ChargingStatus : Set :=
| ChargingStatus_Unknown
| ChargingStatus_Plugged
| ChargingStatus_Unplugged.

Definition DebugPrint_ChargingStatus (status : ChargingStatus) : string :=
  match status with
  | ChargingStatus_Unknown => "Unknown"
  | ChargingStatus_Plugged => "Plugged"
  | ChargingStatus_Unplugged => "Unplugged"
  end.

(** *** Platform::GetFontNames

    [GetSystemFontNames] is implemented per platform; it receives the list
    and returns what it has made of it. *)

Definition default_font_names : FilesList :=
  [ "01_dejavusans.ttf";
    "02_droidsans-fallback.ttf";
    "03_jomolhari-id-a3d.ttf";
    "04_padauk.ttf";
    "05_khmeros.ttf";
    "06_code2000.ttf";
    "07_roboto_medium.ttf" ].

Definition is_empty {A : Type} (l : list A) : bool :=
  match l with [] => true | _ :: _ => false end.

Definition GetFontNames (GetSystemFontNames : FilesList -> FilesList)
    (res : FilesList) : outcome (FilesList * list LogEntry) :=
  ASSERT (is_empty res)
    (let res := res ++ default_font_names in
     let res := GetSystemFontNames res in
     Ret (res, [(LINFO, [LogStr "Available font files:"; LogFiles res])])).

Section Directories.

Context {impl : PlatformImpl}.

(** [Platform::MkDir] is one more primitive of the platform. *)
Variable MkDir : string -> FS -> EError * FS.

(** *** GetFileTypeChecked (anonymous namespace) *)

Definition GetFileTypeChecked (path : string) (fs : FS)
    : bool * EFileType * list LogEntry :=
  let '(ret, type) := GetFileType path fs in
  if negb (EError_eqb ret ERR_OK)
  then (false, type,
        [(LERROR, [LogStr "Can't determine file type for"; LogStr path;
                   LogStr ":"; LogErr ret])])
  else (true, type, []).

(** *** Platform::MkDirChecked *)

Definition MkDirChecked (dirName : string) (fs : FS) : bool * FS * list LogEntry :=
  let '(ret, fs') := MkDir dirName fs in
  match ret with
  | ERR_OK => (true, fs', [])
  | ERR_FILE_ALREADY_EXISTS =>
      let '(ok, type, log) := GetFileTypeChecked dirName fs' in
      if negb ok then (false, fs', log)
      else if negb (EFileType_eqb type FILE_TYPE_DIRECTORY)
      then (false, fs',
            log ++ [(LERROR, [LogStr dirName; LogStr "exists, but not a dirName:";
                              LogType type])])
      else (true, fs', log)
  | _ => (false, fs', [(LERROR, [LogStr dirName; LogStr "can't be created:";
                                 LogErr ret])])
  end.

(** An entry of [directory] whose type query succeeds with a type that
    the mask lets through. *)
Definition passes_mask (fs : FS) (directory : string) (typeMask : Z)
    (file : string) : bool :=
  let '(err, type) := GetFileType (JoinFoldersToPath directory file) fs in
  EError_eqb err ERR_OK && negb (Z.land typeMask (EFileType_bits type) =? 0)%Z.

End Directories.




Definition outcome_map {A B : Type} (f : A -> B) (o : outcome A) : outcome B :=
  match o with
  | Ret a => Ret (f a)
  | Fatal diagnostic => Fatal diagnostic
  | Raise e => Raise e
  end.

Definition roots (p : Platform) : string * string * string :=
  (m_writableDir p, m_resourcesDir p, m_settingsDir p).

(** A filesystem with a directory service, to run [MkDirChecked] on. *)
Definition ListFS_mk_dir (path : string) (fs : list ListFS.Node)
    : EError * list ListFS.Node :=
  if ListFS.file_exists path fs then (ERR_FILE_ALREADY_EXISTS, fs)
  else (ERR_OK, fs ++ [ListFS.dir "" path]).

(** The list filesystem behind an iteration that yields single components
    only and a type query that knows the pseudo-entries for directories,
    as a POSIX system has them. *)
Module PosixFS.

Definition read_dir (directory : string) (fs : list ListFS.Node) : list string :=
  filter (fun name => negb (has_separator name)) (ListFS.read_dir directory fs).

Definition is_pseudo_path (path : string) : bool :=
  has_suffix "/." path || has_suffix "/.." path.

Definition get_file_type (path : string) (fs : list ListFS.Node)
    : EError * EFileType :=
  let '(err, type) := ListFS.get_file_type path fs in
  (err, if is_pseudo_path path then FILE_TYPE_DIRECTORY else type).

Definition impl : PlatformImpl := {|
  FS := list ListFS.Node;
  ReadDir := read_dir;
  GetFileType := get_file_type;
  DeleteFileX := ListFS.delete_file;
  RmDir := ListFS.rm_dir;
  IsFileExistsByFullPath := ListFS.file_exists
|}.

End PosixFS.

(** * Theorems *)

(** ** Generalities *)

Lemma EError_eqb_eq (a b : EError) : EError_eqb a b = true <-> a = b.
Proof. destruct a, b; simpl; split; congruence. Qed.

Lemma EError_eqb_neq (a b : EError) : EError_eqb a b = false <-> a <> b.
Proof. destruct a, b; simpl; split; congruence. Qed.

Lemma EFileType_eqb_eq (a b : EFileType) : EFileType_eqb a b = true <-> a = b.
Proof. destruct a, b; simpl; split; congruence. Qed.

Lemma EFileType_eqb_neq (a b : EFileType) : EFileType_eqb a b = false <-> a <> b.
Proof. destruct a, b; simpl; split; congruence. Qed.

Lemma length_append (s t : string) :
  String.length (s ++ t) = String.length s + String.length t.
Proof. induction s as [|c s IH]; simpl; [reflexivity | now rewrite IH]. Qed.

Lemma append_empty_r (s : string) : (s ++ "")%string = s.
Proof. induction s as [|c s IH]; simpl; [reflexivity | now rewrite IH]. Qed.


(** ** Paths *)

Lemma ends_with_separator_snoc (s : string) :
  ends_with_separator (s ++ String kSeparator "") = true.
Proof.
  induction s as [|c s IH]; simpl.
  - reflexivity.
  - destruct s; simpl in *; [reflexivity | exact IH].
Qed.

Lemma AddSlashIfNeeded_ends (path : string) :
  ends_with_separator (AddSlashIfNeeded path) = true.
Proof.
  unfold AddSlashIfNeeded.
  destruct (ends_with_separator path) eqn:E; [exact E | apply ends_with_separator_snoc].
Qed.

Lemma AddSlashIfNeeded_length (path : string) :
  String.length path <= String.length (AddSlashIfNeeded path).
Proof.
  unfold AddSlashIfNeeded.
  destruct (ends_with_separator path); [lia | rewrite length_append; lia].
Qed.

Lemma AddSlashIfNeeded_idempotent (path : string) :
  AddSlashIfNeeded (AddSlashIfNeeded path) = AddSlashIfNeeded path.
Proof.
  unfold AddSlashIfNeeded at 1. now rewrite AddSlashIfNeeded_ends.
Qed.

Lemma ends_with_separator_has (s : string) :
  ends_with_separator s = true -> has_separator s = true.
Proof.
  induction s as [|c s IH]; simpl; [discriminate|].
  destruct s.
  - intros ->. reflexivity.
  - intros H. rewrite (IH H). apply orb_true_r.
Qed.

Lemma has_separator_append_l (s t : string) :
  has_separator s = true -> has_separator (s ++ t) = true.
Proof.
  induction s as [|c s IH]; simpl; [discriminate|].
  destruct (Ascii.eqb c kSeparator); simpl; auto.
Qed.

Lemma JoinFoldersToPath_has_separator (folder file : string) :
  has_separator (JoinFoldersToPath folder file) = true.
Proof.
  unfold JoinFoldersToPath.
  apply has_separator_append_l, ends_with_separator_has, AddSlashIfNeeded_ends.
Qed.

(** A string holding the separator is neither empty nor a pseudo-entry. *)
Lemma has_separator_proper (s : string) :
  has_separator s = true ->
  (String.eqb s "" || IsSpecialDirName s) = false.
Proof.
  intros H.
  destruct (String.eqb_spec s "") as [->|_]; [discriminate|].
  unfold IsSpecialDirName.
  destruct (String.eqb_spec s ".") as [->|_]; [discriminate|].
  destruct (String.eqb_spec s "..") as [->|_]; [discriminate|].
  reflexivity.
Qed.

Lemma JoinFoldersToPath_proper (folder file : string) :
  (String.eqb (JoinFoldersToPath folder file) ""
   || IsSpecialDirName (JoinFoldersToPath folder file)) = false.
Proof. apply has_separator_proper, JoinFoldersToPath_has_separator. Qed.

Lemma JoinFoldersToPath_longer (folder file : string) :
  file <> "" ->
  String.length folder < String.length (JoinFoldersToPath folder file).
Proof.
  intros Hfile. unfold JoinFoldersToPath. rewrite length_append.
  pose proof (AddSlashIfNeeded_length folder).
  destruct file; [congruence | simpl; lia].
Qed.

Lemma JoinPath_longer (folder file : string) :
  file <> "" ->
  String.length folder < String.length (JoinPath folder file).
Proof.
  intros Hfile. destruct folder as [|c folder].
  - simpl. destruct file; [congruence | simpl; lia].
  - apply (JoinFoldersToPath_longer (String c folder) file Hfile).
Qed.

Lemma JoinPath_shorter (folder file : string) :
  String.length (JoinPath folder file) <= String.length (JoinFoldersToPath folder file).
Proof.
  destruct folder as [|c folder].
  - unfold JoinFoldersToPath. rewrite length_append. simpl. lia.
  - apply Nat.le_refl.
Qed.

(** ** ErrnoToError *)

Section ErrnoFacts.

Variables ENOENT EACCES ENOTEMPTY EEXIST ENAMETOOLONG ENOTDIR ELOOP EIO : Z.

(** A [switch] whose case labels coincide does not compile. *)
Hypothesis errno_labels_distinct :
  NoDup (errno_labels ENOENT EACCES ENOTEMPTY EEXIST ENAMETOOLONG ENOTDIR ELOOP EIO).

Local Notation "'mapped'" :=
  (ErrnoToError ENOENT EACCES ENOTEMPTY EEXIST ENAMETOOLONG ENOTDIR ELOOP EIO).

Lemma errno_table_lookup (errno : Z) (kind : EError) :
  In (errno, kind)
     (errno_table ENOENT EACCES ENOTEMPTY EEXIST ENAMETOOLONG ENOTDIR ELOOP EIO) ->
  mapped errno = kind.
Proof.
  pose proof errno_labels_distinct as D. unfold errno_labels in D.
  repeat match goal with
         | H : NoDup (_ :: _) |- _ =>
             let x := fresh "x" in let l := fresh "l" in
             let N := fresh "N" in let D' := fresh "D" in
             inversion H as [|x l N D']; subst x l; clear H; simpl in N
         end.
  unfold errno_table, ErrnoToError. simpl.
  intros H.
  repeat match goal with
         | H : _ \/ _ |- _ => destruct H as [H|H]
         | H : (_, _) = (_, _) |- _ => inversion H; subst; clear H
         | H : False |- _ => destruct H
         end;
    repeat match goal with
           | |- context [(?a =? ?b)%Z] =>
               destruct (Z.eqb_spec a b);
               [ try reflexivity; exfalso; intuition congruence | ]
           end;
    congruence.
Qed.

Lemma errno_unlisted (errno : Z) :
  ~ In errno (errno_labels ENOENT EACCES ENOTEMPTY EEXIST ENAMETOOLONG ENOTDIR ELOOP EIO) ->
  mapped errno = ERR_UNKNOWN.
Proof.
  unfold errno_labels, ErrnoToError. simpl. intros H.
  repeat match goal with
         | |- context [(?a =? ?b)%Z] =>
             destruct (Z.eqb_spec a b); [exfalso; apply H; intuition congruence|]
         end.
  reflexivity.
Qed.

(** C7.  ErrnoToError is a total function of the error code: each of the
    eight listed codes yields its documented kind, every other code
    yields ERR_UNKNOWN. *)
Theorem ErrnoToError_total_mapping (errno : Z) :
  mapped ENOENT = ERR_FILE_DOES_NOT_EXIST /\
  mapped EACCES = ERR_ACCESS_FAILED /\
  mapped ENOTEMPTY = ERR_DIRECTORY_NOT_EMPTY /\
  mapped EEXIST = ERR_FILE_ALREADY_EXISTS /\
  mapped ENAMETOOLONG = ERR_NAME_TOO_LONG /\
  mapped ENOTDIR = ERR_NOT_A_DIRECTORY /\
  mapped ELOOP = ERR_SYMLINK_LOOP /\
  mapped EIO = ERR_IO_ERROR /\
  (~ In errno (errno_labels ENOENT EACCES ENOTEMPTY EEXIST ENAMETOOLONG ENOTDIR ELOOP EIO) ->
   mapped errno = ERR_UNKNOWN) /\
  (exists kind, mapped errno = kind).
Proof.
  repeat match goal with |- _ /\ _ => split end;
    try (apply errno_table_lookup; unfold errno_table; simpl; tauto).
  - apply errno_unlisted.
  - exists (mapped errno). reflexivity.
Qed.

End ErrnoFacts.

(** The codes of Linux: ENOENT 2, EACCES 13, ENOTEMPTY 39, EEXIST 17,
    ENAMETOOLONG 36, ENOTDIR 20, ELOOP 40, EIO 5; EPERM is 1. *)
Lemma ErrnoToError_total_mapping_linux :
  NoDup (errno_labels 2 13 39 17 36 20 40 5) /\
  ErrnoToError 2 13 39 17 36 20 40 5 13 = ERR_ACCESS_FAILED /\
  ErrnoToError 2 13 39 17 36 20 40 5 1 = ERR_UNKNOWN.
Proof.
  assert (D : NoDup (errno_labels 2 13 39 17 36 20 40 5)).
  { unfold errno_labels.
    repeat (constructor; [simpl; intuition discriminate|]).
    constructor. }
  split; [exact D|].
  pose proof (ErrnoToError_total_mapping 2 13 39 17 36 20 40 5 D 1) as T.
  split; [apply T|].
  apply T. unfold errno_labels. simpl. intuition discriminate.
Defined.

(** ** Root directories *)

(** C10.  Each setter of a root directory stores the path with the
    separator appended unless the path already ends in it, and changes
    nothing else of the platform: neither of the other two roots, none of
    the worker handles.  So the stored root ends in the separator, a
    platform whose roots all end in the separator keeps that through every
    setter, and once the three setters have been called it holds whatever
    the roots were before.  ReadPathForFile forms its candidates by putting
    the file name straight behind the stored root, which under the
    invariant ends in the separator. *)
Theorem setters_store_separated_roots (path : string) (p : Platform) :
  (m_settingsDir (SetSettingsDir path p) = AddSlashIfNeeded path /\
   m_resourcesDir (SetResourceDir path p) = AddSlashIfNeeded path /\
   m_writableDir (SetWritableDirForTests path p) = AddSlashIfNeeded path) /\
  ends_with_separator (AddSlashIfNeeded path) = true /\
  (ends_with_separator path = true -> AddSlashIfNeeded path = path) /\
  (ends_with_separator path = false ->
   AddSlashIfNeeded path = (path ++ String kSeparator "")%string) /\
  (forall file : string,
     scope_candidate (SetSettingsDir path p) file "s"%char
       = Some (AddSlashIfNeeded path ++ file)%string /\
     scope_candidate (SetResourceDir path p) file "r"%char
       = Some (AddSlashIfNeeded path ++ file)%string /\
     scope_candidate (SetWritableDirForTests path p) file "w"%char
       = Some (AddSlashIfNeeded path ++ file)%string) /\
  (m_writableDir (SetSettingsDir path p) = m_writableDir p /\
   m_resourcesDir (SetSettingsDir path p) = m_resourcesDir p /\
   worker_handles (SetSettingsDir path p) = worker_handles p) /\
  (m_writableDir (SetResourceDir path p) = m_writableDir p /\
   m_settingsDir (SetResourceDir path p) = m_settingsDir p /\
   worker_handles (SetResourceDir path p) = worker_handles p) /\
  (m_resourcesDir (SetWritableDirForTests path p) = m_resourcesDir p /\
   m_settingsDir (SetWritableDirForTests path p) = m_settingsDir p /\
   worker_handles (SetWritableDirForTests path p) = worker_handles p) /\
  (roots_end_in_separator p ->
   roots_end_in_separator (SetSettingsDir path p) /\
   roots_end_in_separator (SetResourceDir path p) /\
   roots_end_in_separator (SetWritableDirForTests path p)) /\
  (forall writable resources settings : string,
     roots_end_in_separator
       (SetSettingsDir settings
          (SetResourceDir resources (SetWritableDirForTests writable p))) /\
     roots_end_in_separator
       (SetWritableDirForTests writable
          (SetResourceDir resources (SetSettingsDir settings p)))) /\
  (roots_end_in_separator p ->
   forall (file : string) (c : ascii),
     c = "w"%char \/ c = "r"%char \/ c = "s"%char ->
     ends_with_separator (scope_root p c) = true /\
     scope_candidate p file c = Some (scope_root p c ++ file)%string).
Proof.
  split; [repeat split|].
  split; [apply AddSlashIfNeeded_ends|].
  split; [|split; [|split]].
  - unfold AddSlashIfNeeded. now intros ->.
  - unfold AddSlashIfNeeded. now intros ->.
  - intros file. repeat split.
  - split; [repeat split|]. split; [repeat split|]. split; [repeat split|].
    split; [|split].
    + intros [Hw [Hr Hs]].
      repeat split; simpl; try assumption; apply AddSlashIfNeeded_ends.
    + intros writable resources settings.
      split; repeat split; simpl; apply AddSlashIfNeeded_ends.
    + intros [Hw [Hr Hs]] file c [-> | [-> | ->]]; split; try reflexivity; assumption.
Qed.

Lemma setters_store_separated_roots_sample :
  m_settingsDir (SetSettingsDir "/data/settings" ListFS.sample_platform) = "/data/settings/" /\
  m_writableDir (SetWritableDirForTests "/data/" ListFS.sample_platform) = "/data/" /\
  scope_candidate (SetResourceDir "res" ListFS.sample_platform) "a.txt" "r"%char
    = Some "res/a.txt" /\
  roots_end_in_separator ListFS.sample_platform /\
  roots_end_in_separator (SetResourceDir "res" ListFS.sample_platform) /\
  roots (SetResourceDir "res" ListFS.sample_platform) = ("writable/", "res/", "settings/").
Proof.
  pose proof (setters_store_separated_roots "/data/settings" ListFS.sample_platform) as S.
  pose proof (setters_store_separated_roots "/data/" ListFS.sample_platform) as W.
  pose proof (setters_store_separated_roots "res" ListFS.sample_platform) as R.
  destruct S as [[S _] _], W as [[_ [_ W]] _].
  destruct R as [_ [_ [_ [_ [R [_ [_ [_ [P _]]]]]]]]].
  assert (I : roots_end_in_separator ListFS.sample_platform) by (repeat split).
  split; [exact S|]. split; [exact W|].
  split; [exact (proj1 (proj2 (R "a.txt")))|].
  split; [exact I|]. split; [exact (proj1 (proj2 (P I)))|]. reflexivity.
Defined.

(** ** Worker lifecycle *)

Lemma RunThreads_cases (p : Platform) :
  match handles_exist p with
  | (false, false, false) =>
      exists p', RunThreads p = Ret p' /\ handles_exist p' = (true, true, true)
  | _ => RunThreads p = Fatal ["ASSERT"]
  end.
Proof.
  unfold handles_exist, RunThreads, ASSERT.
  destruct (m_networkThread p), (m_fileThread p), (m_backgroundThread p); simpl;
    try reflexivity.
  eexists. split; reflexivity.
Qed.

Lemma ShutdownThreads_cases (p : Platform) :
  match handles_exist p with
  | (true, true, true) =>
      exists p', ShutdownThreads p = Ret p' /\ handles_exist p' = (false, false, false)
  | _ => ShutdownThreads p = Fatal ["ASSERT"]
  end.
Proof.
  unfold handles_exist, ShutdownThreads, ASSERT.
  destruct (m_networkThread p), (m_fileThread p), (m_backgroundThread p); simpl;
    try reflexivity.
  eexists. split; reflexivity.
Qed.

(** C9.  RunThreads returns exactly when none of the three handles exists,
    and then all three exist; ShutdownThreads returns exactly when all
    three exist, and then none does; in every other state the assertion
    fails.  So a second RunThreads without a ShutdownThreads in between,
    and a ShutdownThreads without a RunThreads before it, fail the
    assertion. *)
Theorem worker_lifecycle_misuse_is_fatal (p : Platform) :
  (handles_exist p = (false, false, false) ->
   exists p1, RunThreads p = Ret p1 /\ handles_exist p1 = (true, true, true) /\
              RunThreads p1 = Fatal ["ASSERT"] /\
              exists p2, ShutdownThreads p1 = Ret p2 /\
                         handles_exist p2 = (false, false, false) /\
                         ShutdownThreads p2 = Fatal ["ASSERT"]) /\
  (handles_exist p = (false, false, false) -> ShutdownThreads p = Fatal ["ASSERT"]) /\
  (handles_exist p <> (false, false, false) -> RunThreads p = Fatal ["ASSERT"]) /\
  (handles_exist p <> (true, true, true) -> ShutdownThreads p = Fatal ["ASSERT"]) /\
  (handles_exist p = (true, true, true) ->
   exists p', ShutdownThreads p = Ret p' /\ handles_exist p' = (false, false, false)).
Proof.
  pose proof (RunThreads_cases p) as R. pose proof (ShutdownThreads_cases p) as S.
  repeat match goal with |- _ /\ _ => split end; intros H.
  - rewrite H in R. destruct R as [p1 [R1 E1]].
    exists p1. split; [exact R1|]. split; [exact E1|].
    pose proof (RunThreads_cases p1) as R'. rewrite E1 in R'.
    split; [exact R'|].
    pose proof (ShutdownThreads_cases p1) as S1. rewrite E1 in S1.
    destruct S1 as [p2 [S2 E2]]. exists p2. split; [exact S2|]. split; [exact E2|].
    pose proof (ShutdownThreads_cases p2) as S'. now rewrite E2 in S'.
  - now rewrite H in S.
  - destruct (handles_exist p) as [[[] []] []]; try exact R. congruence.
  - destruct (handles_exist p) as [[[] []] []]; try exact S. congruence.
  - now rewrite H in S.
Qed.

Lemma worker_lifecycle_misuse_is_fatal_sample :
  exists p1, RunThreads ListFS.sample_platform = Ret p1 /\
             RunThreads p1 = Fatal ["ASSERT"] /\
             ShutdownThreads ListFS.sample_platform = Fatal ["ASSERT"].
Proof.
  pose proof (worker_lifecycle_misuse_is_fatal ListFS.sample_platform) as [A [B _]].
  destruct (A eq_refl) as [p1 [R1 [_ [R2 _]]]].
  exists p1. split; [exact R1|]. split; [exact R2|]. exact (B eq_refl).
Defined.

(** ** IsDirectory and ReadPathForFile *)

Section Queries.

Context {impl : PlatformImpl}.

(** C5.  IsDirectory is true exactly when the type query succeeds and
    reports a directory; a failed query and a path of another type both
    give false. *)
Theorem IsDirectory_swallows_failure (path : string) (fs : FS) :
  (IsDirectory path fs = true <->
   GetFileType path fs = (ERR_OK, FILE_TYPE_DIRECTORY)) /\
  (fst (GetFileType path fs) <> ERR_OK -> IsDirectory path fs = false) /\
  (fst (GetFileType path fs) = ERR_OK ->
   snd (GetFileType path fs) <> FILE_TYPE_DIRECTORY -> IsDirectory path fs = false).
Proof.
  unfold IsDirectory. destruct (GetFileType path fs) as [err type]. simpl.
  destruct (EError_eqb err ERR_OK) eqn:E; simpl.
  - apply EError_eqb_eq in E. subst err.
    split; [|split].
    + rewrite EFileType_eqb_eq. split; [now intros ->|now inversion 1].
    + congruence.
    + intros _ H. now apply EFileType_eqb_neq.
  - apply EError_eqb_neq in E.
    split; [|split]; try reflexivity.
    split; [discriminate|]. inversion 1. congruence.
Qed.

Lemma is_scope_char_candidate (p : Platform) (file : string) (c : ascii) :
  is_scope_char c = true ->
  scope_candidate p file c = Some (scope_root p c ++ file)%string.
Proof.
  unfold is_scope_char, scope_candidate, scope_root.
  destruct (Ascii.eqb c "w"); [reflexivity|].
  destruct (Ascii.eqb c "r"); [reflexivity|].
  destruct (Ascii.eqb c "s"); [reflexivity|].
  destruct (Ascii.eqb c "f"); [reflexivity|discriminate].
Qed.

Lemma not_scope_char_candidate (p : Platform) (file : string) (c : ascii) :
  is_scope_char c = false -> scope_candidate p file c = None.
Proof.
  unfold is_scope_char, scope_candidate.
  destruct (Ascii.eqb c "w"); [discriminate|].
  destruct (Ascii.eqb c "r"); [discriminate|].
  destruct (Ascii.eqb c "s"); [discriminate|].
  destruct (Ascii.eqb c "f"); [discriminate|reflexivity].
Qed.

(** The loop over a well-formed remainder of the specifier. *)
Lemma ReadPathForFile_loop_first_existing (p : Platform) (fs : FS)
    (file searchScope rest : string) :
  scope_chars_ok rest = true ->
  ReadPathForFile_loop p fs file searchScope rest =
  match find (fun path => IsFileExistsByFullPath path fs) (candidate_paths p file rest) with
  | Some path => Ret path
  | None => Raise (FileAbsentException (absence_diagnostic p file searchScope))
  end.
Proof.
  induction rest as [|c rest IH]; simpl.
  - reflexivity.
  - intros H. apply andb_true_iff in H. destruct H as [Hc Hrest].
    rewrite (is_scope_char_candidate p file c Hc).
    destruct (IsFileExistsByFullPath (scope_root p c ++ file) fs); [reflexivity|].
    apply IH, Hrest.
Qed.

(** The loop stops at the first character outside the alphabet when no
    candidate before it exists. *)
Lemma ReadPathForFile_loop_unsupported (p : Platform) (fs : FS)
    (file searchScope before : string) (c : ascii) (after : string) :
  scope_chars_ok before = true ->
  is_scope_char c = false ->
  (forall path, In path (candidate_paths p file before) ->
                IsFileExistsByFullPath path fs = false) ->
  ReadPathForFile_loop p fs file searchScope (before ++ String c after)
  = Fatal ["Unsupported searchScope:"; searchScope].
Proof.
  intros Hok Hc. induction before as [|b before IH]; simpl; intros Habsent.
  - now rewrite (not_scope_char_candidate p file c Hc).
  - simpl in Hok. apply andb_true_iff in Hok. destruct Hok as [Hb Hok].
    rewrite (is_scope_char_candidate p file b Hb).
    rewrite (Habsent (scope_root p b ++ file)%string) by (simpl; auto).
    apply IH; [exact Hok|]. intros path Hin. apply Habsent. simpl. auto.
Qed.

Lemma default_scope_ok (scope : string) :
  scope_chars_ok scope = true -> scope_chars_ok (default_scope scope) = true.
Proof.
  unfold default_scope. destruct (String.eqb scope ""); [reflexivity|trivial].
Qed.

(** C3.  Over the alphabet w, r, s, f (the empty specifier standing for
    wrf) ReadPathForFile returns the first candidate, in specifier order,
    that exists; the writable candidate wins over the resource one under
    wrf; when no candidate exists FileAbsentException is thrown and its
    diagnostic carries the three root directories. *)
Theorem ReadPathForFile_first_existing (p : Platform) (fs : FS)
    (file scope : string) :
  scope_chars_ok scope = true ->
  ReadPathForFile p fs file scope =
    match find (fun path => IsFileExistsByFullPath path fs)
               (candidate_paths p file (default_scope scope)) with
    | Some path => Ret path
    | None => Raise (FileAbsentException
                       (absence_diagnostic p file (default_scope scope)))
    end
  /\ (scope = "" \/ scope = "wrf" ->
      IsFileExistsByFullPath (m_writableDir p ++ file) fs = true ->
      ReadPathForFile p fs file scope = Ret (m_writableDir p ++ file)%string)
  /\ ((forall path, In path (candidate_paths p file (default_scope scope)) ->
                    IsFileExistsByFullPath path fs = false) ->
      ReadPathForFile p fs file scope =
      Raise (FileAbsentException
               ["File"; file; "doesn't exist in the scope"; default_scope scope;
                ("Have been looking in:" ++ String "010"%char "")%string;
                (m_writableDir p ++ String "010"%char (m_resourcesDir p)
                   ++ String "010"%char (m_settingsDir p))%string])).
Proof.
  intros Hok.
  assert (E : ReadPathForFile p fs file scope =
              match find (fun path => IsFileExistsByFullPath path fs)
                         (candidate_paths p file (default_scope scope)) with
              | Some path => Ret path
              | None => Raise (FileAbsentException
                                 (absence_diagnostic p file (default_scope scope)))
              end).
  { unfold ReadPathForFile. fold (default_scope scope).
    apply ReadPathForFile_loop_first_existing, default_scope_ok, Hok. }
  split; [exact E|]. split.
  - intros Hscope Hex. rewrite E.
    assert (D : default_scope scope = "wrf") by (destruct Hscope; subst; reflexivity).
    rewrite D. unfold candidate_paths. simpl. unfold scope_root at 1. simpl.
    now rewrite Hex.
  - intros Habsent. rewrite E.
    destruct (find _ _) as [path|] eqn:F; [|reflexivity].
    apply find_some in F. destruct F as [Hin Hex].
    rewrite (Habsent path Hin) in Hex. discriminate.
Qed.

(** C8.  A specifier over w, r, s, f never reaches the fatal check; a
    specifier with another character, reached before any candidate
    exists, ends in the failed check whose diagnostic is the specifier. *)
Theorem ReadPathForFile_unsupported_scope_is_fatal (p : Platform) (fs : FS)
    (file scope : string) :
  (scope_chars_ok scope = true ->
   forall diagnostic, ReadPathForFile p fs file scope <> Fatal diagnostic) /\
  (forall (before : string) (c : ascii) (after : string),
     scope = (before ++ String c after)%string ->
     scope_chars_ok before = true ->
     is_scope_char c = false ->
     (forall path, In path (candidate_paths p file before) ->
                   IsFileExistsByFullPath path fs = false) ->
     ReadPathForFile p fs file scope = Fatal ["Unsupported searchScope:"; scope]).
Proof.
  split.
  - intros Hok diagnostic. unfold ReadPathForFile. fold (default_scope scope).
    rewrite ReadPathForFile_loop_first_existing by (apply default_scope_ok, Hok).
    destruct (find _ _); discriminate.
  - intros before c after -> Hok Hc Habsent.
    unfold ReadPathForFile.
    replace (String.eqb (before ++ String c after) "") with false
      by (destruct before; reflexivity).
    now apply ReadPathForFile_loop_unsupported.
Qed.

End Queries.

Lemma IsDirectory_swallows_failure_sample :
  IsDirectory (impl := ListFS.impl) "root/sub" ListFS.sample_tree = true /\
  IsDirectory (impl := ListFS.impl) "root/a.txt" ListFS.sample_tree = false /\
  IsDirectory (impl := ListFS.impl) "root/missing" ListFS.sample_tree = false.
Proof.
  pose proof (IsDirectory_swallows_failure (impl := ListFS.impl)
                "root/sub" ListFS.sample_tree) as [A _].
  pose proof (IsDirectory_swallows_failure (impl := ListFS.impl)
                "root/a.txt" ListFS.sample_tree) as [_ [_ B]].
  pose proof (IsDirectory_swallows_failure (impl := ListFS.impl)
                "root/missing" ListFS.sample_tree) as [_ [C _]].
  split; [apply A; reflexivity|].
  split; [apply B; [reflexivity | discriminate] | apply C; discriminate].
Defined.

Lemma ReadPathForFile_first_existing_sample :
  ReadPathForFile (impl := ListFS.impl) ListFS.sample_platform ListFS.both_roots
    "countries.txt" "" = Ret "writable/countries.txt" /\
  ReadPathForFile (impl := ListFS.impl) ListFS.sample_platform ListFS.both_roots
    "countries.txt" "rw" = Ret "resources/countries.txt".
Proof.
  split.
  - apply (ReadPathForFile_first_existing (impl := ListFS.impl)
             ListFS.sample_platform ListFS.both_roots "countries.txt" "" eq_refl);
      [left; reflexivity | reflexivity].
  - exact (proj1 (ReadPathForFile_first_existing (impl := ListFS.impl)
                    ListFS.sample_platform ListFS.both_roots "countries.txt" "rw" eq_refl)).
Defined.

Lemma ReadPathForFile_unsupported_scope_is_fatal_sample :
  ReadPathForFile (impl := ListFS.impl) ListFS.sample_platform ListFS.both_roots
    "missing.txt" "wxf" = Fatal ["Unsupported searchScope:"; "wxf"].
Proof.
  apply (proj2 (ReadPathForFile_unsupported_scope_is_fatal (impl := ListFS.impl)
                  ListFS.sample_platform ListFS.both_roots "missing.txt" "wxf")
           "w" "x"%char "f" eq_refl eq_refl eq_refl).
  intros path [<-|[]]. reflexivity.
Defined.

(** ** Patterns *)

Lemma filter_all {A : Type} (f : A -> bool) (l : list A) :
  (forall x, f x = true) -> filter f l = l.
Proof.
  intros H. induction l as [|x l IH]; simpl; [reflexivity|].
  now rewrite H, IH.
Qed.

Lemma regex_search_everything (name : string) : Regex.regex_search ".*" name = true.
Proof. destruct name; reflexivity. Qed.

Lemma tokenize_plain_char (c : ascii) (rest : string) :
  Regex.is_syntax_char c = false ->
  Regex.tokenize (String c rest)
  = option_map (cons (Regex.TAtom (Regex.Lit c))) (Regex.tokenize rest).
Proof.
  intros Hc. pose proof Hc as H.
  unfold Regex.is_syntax_char, Regex.syntax_chars in H. simpl in H. simpl.
  rewrite Hc.
  repeat match type of H with
         | (_ || _)%bool = false =>
             let E := fresh "E" in
             apply orb_false_iff in H; destruct H as [E H]
         end.
  repeat match goal with
         | E : Ascii.eqb c ?d = false |- _ => rewrite E; clear E
         end.
  reflexivity.
Qed.

Lemma tokenize_plain (s : string) :
  plain_chars s = true ->
  Regex.tokenize (s ++ "$")
  = Some (map (fun c => Regex.TAtom (Regex.Lit c)) (list_ascii_of_string s) ++ [Regex.TEol]).
Proof.
  induction s as [|c s IH]; simpl plain_chars; intros H.
  - reflexivity.
  - apply andb_true_iff in H. destruct H as [Hc Hs].
    apply negb_true_iff in Hc.
    change (String c s ++ "$")%string with (String c (s ++ "$")).
    rewrite (tokenize_plain_char c _ Hc), (IH Hs). reflexivity.
Qed.

Lemma parse_items_literal (cs : list ascii) :
  Regex.parse_items (map (fun c => Regex.TAtom (Regex.Lit c)) cs ++ [Regex.TEol])
  = Some (map (fun c => Regex.One (Regex.Lit c)) cs ++ [Regex.Eol]).
Proof.
  induction cs as [|c cs IH]; [reflexivity|].
  simpl. destruct cs as [|d cs]; simpl in *.
  - reflexivity.
  - now rewrite IH.
Qed.

(** The pattern built for an extension of plain characters. *)
Lemma parse_ext_to_regexp (rest : string) :
  plain_chars rest = true ->
  Regex.parse (ext_to_regexp (String "." rest))
  = Some (false, literal_items (String "." rest)).
Proof.
  intros H. unfold Regex.parse, ext_to_regexp.
  change (Regex.tokenize (String "\" (String "." rest ++ "$")))
    with (option_map (cons (Regex.TAtom (Regex.Lit "."))) (Regex.tokenize (rest ++ "$"))).
  rewrite (tokenize_plain rest H). simpl option_map.
  pose proof (parse_items_literal (list_ascii_of_string (String "." rest))) as P.
  simpl in *. now rewrite P.
Qed.

Lemma match_here_literal (s text : string) :
  Regex.match_here (literal_items s) text = String.eqb text s.
Proof.
  revert text. induction s as [|c s IH]; intros text.
  - destruct text; reflexivity.
  - destruct text as [|d text]; [reflexivity|].
    change (Regex.match_here (literal_items (String c s)) (String d text))
      with (Ascii.eqb d c && Regex.match_here (literal_items s) text).
    rewrite IH. simpl. destruct (Ascii.eqb d c); reflexivity.
Qed.

Lemma search_from_literal (s name : string) :
  Regex.search_from (literal_items s) name = has_suffix s name.
Proof.
  induction name as [|c name IH]; simpl.
  - now rewrite match_here_literal.
  - now rewrite match_here_literal, IH.
Qed.

Lemma has_suffix_ends_in (ext name : string) :
  has_suffix ext name = true <-> ends_in ext name.
Proof.
  split.
  - induction name as [|c name IH]; cbn [has_suffix]; intros H.
    + rewrite orb_false_r in H. apply String.eqb_eq in H. subst. now exists "".
    + apply orb_true_iff in H. destruct H as [H|H].
      * apply String.eqb_eq in H. exists "". now rewrite H.
      * destruct (IH H) as [stem ->]. now exists (String c stem).
  - intros [stem ->]. induction stem as [|c stem IH]; cbn [append].
    + destruct ext; cbn [has_suffix]; now rewrite String.eqb_refl.
    + cbn [has_suffix]. rewrite IH. apply orb_true_r.
Qed.

Section Extensions.

Context {impl : PlatformImpl}.

(** X15.  For an extension made of a dot and characters that have no
    meaning in a pattern, GetFilesByExt adds to the list it is given the
    listed names that end in the extension, and only those. *)
Lemma GetFilesByExt_plain_extension (directory rest : string) (fs : FS)
    (outFiles : FilesList) :
  plain_chars rest = true ->
  exists found,
    GetFilesByExt directory (String "." rest) fs outFiles = Ret (outFiles ++ found) /\
    forall name, In name found <->
                 In name (ReadDir directory fs) /\ ends_in (String "." rest) name.
Proof.
  intros H.
  exists (filter (has_suffix (String "." rest)) (ReadDir directory fs)). split.
  - unfold GetFilesByExt, ASSERT, GetFilesByRegExp. simpl.
    do 2 f_equal. apply filter_ext. intros name.
    unfold Regex.regex_search. rewrite (parse_ext_to_regexp rest H).
    apply search_from_literal.
  - intros name. rewrite filter_In, has_suffix_ends_in. reflexivity.
Qed.

End Extensions.

(** C4.  GetFilesByExt escapes the leading dot of the extension and
    nothing else: a later dot of the extension is the wildcard of the
    pattern, so with ".tar.gz" the name "backup.tar-gz", which does not end
    in ".tar.gz", is returned as well; with ".mwm" only the name ending in
    ".mwm" is. *)
Theorem GetFilesByExt_inner_dot_is_wildcard :
  ext_to_regexp ".tar.gz" = "\.tar.gz$" /\
  GetFilesByExt (impl := ListFS.impl) "maps" ".tar.gz" ListFS.maps_dir []
  = Ret ["backup.tar.gz"; "backup.tar-gz"] /\
  ~ ends_in ".tar.gz" "backup.tar-gz" /\
  GetFilesByExt (impl := ListFS.impl) "maps" ".mwm" ListFS.maps_dir []
  = Ret ["World.mwm"].
Proof.
  split; [reflexivity|]. split; [reflexivity|]. split; [|reflexivity].
  intros H. apply has_suffix_ends_in in H. discriminate H.
Qed.

(** ** Recursive removal *)

Section Removal.

Context {impl : PlatformImpl}.

Lemma GetFilesByRegExp_everything (directory : string) (fs : FS) :
  GetFilesByRegExp directory ".*" fs [] = ReadDir directory fs.
Proof.
  unfold GetFilesByRegExp. simpl.
  apply filter_all, regex_search_everything.
Qed.

Lemma RmDirRecursively_unfold (fuel : nat) (dirName : string) (fs : FS) :
  RmDirRecursively fuel dirName fs =
  if String.eqb dirName "" || IsSpecialDirName dirName then Some (false, fs, [])
  else
    match fuel with
    | O => None
    | S fuel' =>
        match RmDir_loop (RmDirRecursively fuel') dirName (ReadDir dirName fs) true fs with
        | None => None
        | Some (res, fs1, evs) =>
            let '(err, fs2) := RmDir dirName fs1 in
            Some (if negb (EError_eqb err ERR_OK) then false else res, fs2,
                  EvList dirName ".*" :: evs ++ [EvRmDir dirName err])
        end
    end.
Proof.
  destruct fuel; simpl; [reflexivity|].
  now rewrite GetFilesByRegExp_everything.
Qed.

(** C6.  On the empty name and on the two pseudo-entries
    RmDirRecursively returns false at once, whatever the fuel: no
    event, and the filesystem it leaves is the one it was given. *)
Theorem RmDirRecursively_refuses_special_names (fuel : nat) (dirName : string) (fs : FS) :
  dirName = "" \/ dirName = "." \/ dirName = ".." ->
  RmDirRecursively fuel dirName fs = Some (false, fs, []).
Proof.
  intros [-> | [-> | ->]]; destruct fuel; reflexivity.
Qed.

Lemma deletions_succeeded_app (evs1 evs2 : list event) :
  deletions_succeeded (evs1 ++ evs2)
  = deletions_succeeded evs1 && deletions_succeeded evs2.
Proof. apply forallb_app. Qed.

Lemma RmDir_loop_sound (rec : string -> FS -> run bool) (dirName : string) :
  sound_call rec ->
  forall allFiles res fs res' fs' evs,
    RmDir_loop rec dirName allFiles res fs = Some (res', fs', evs) ->
    Visits dirName allFiles fs evs fs' /\
    res' = res && deletions_succeeded evs.
Proof.
  intros Hrec. induction allFiles as [|file rest IH]; intros res fs res' fs' evs; simpl.
  - intros H. inversion H; subst. split; [constructor|]. now rewrite andb_true_r.
  - unfold RmDir_visit.
    destruct (GetFileType (JoinFoldersToPath dirName file) fs) as [err type] eqn:Q.
    destruct (EError_eqb err ERR_OK) eqn:E; simpl.
    + apply EError_eqb_eq in E. subst err.
      destruct (EFileType_eqb type FILE_TYPE_DIRECTORY) eqn:T.
      * apply EFileType_eqb_eq in T. subst type.
        destruct (IsSpecialDirName file) eqn:P.
        -- destruct (RmDir_loop rec dirName rest res fs) as [[[r2 f2] e2]|] eqn:L;
             [|discriminate].
           intros H. inversion H; subst. destruct (IH _ _ _ _ _ L) as [V R].
           split; [now apply Visits_pseudo|exact R].
        -- destruct (rec (JoinFoldersToPath dirName file) fs) as [[[ok f1] e1]|] eqn:C;
             [|discriminate].
           destruct (Hrec _ _ _ _ _ (JoinFoldersToPath_proper dirName file) C) as [Rm Ok].
           destruct (RmDir_loop rec dirName rest _ f1) as [[[r2 f2] e2]|] eqn:L;
             [|discriminate].
           intros H. inversion H; subst. destruct (IH _ _ _ _ _ L) as [V R].
           split; [eapply Visits_subdir; eassumption|].
           cbn [deletions_succeeded forallb deletion_ok]. fold (deletions_succeeded (e1 ++ e2)).
           rewrite deletions_succeeded_app, R.
           destruct (deletions_succeeded e1), res; reflexivity.
      * apply EFileType_eqb_neq in T.
        destruct (DeleteFileX (JoinFoldersToPath dirName file) fs) as [ok f1] eqn:D.
        destruct (RmDir_loop rec dirName rest _ f1) as [[[r2 f2] e2]|] eqn:L;
          [|discriminate].
        intros H. inversion H; subst. destruct (IH _ _ _ _ _ L) as [V R].
        split; [eapply Visits_file; eassumption|].
        cbn [app deletions_succeeded forallb deletion_ok]. fold (deletions_succeeded e2).
        rewrite R. destruct ok, res; reflexivity.
    + apply EError_eqb_neq in E.
      destruct (RmDir_loop rec dirName rest res fs) as [[[r2 f2] e2]|] eqn:L;
        [|discriminate].
      intros H. inversion H; subst. destruct (IH _ _ _ _ _ L) as [V R].
      split; [now apply Visits_skipped|exact R].
Qed.

Lemma RmDirRecursively_sound (fuel : nat) : sound_call (RmDirRecursively fuel).
Proof.
  induction fuel as [|fuel IH]; intros path fs ok fs' evs Hproper;
    rewrite RmDirRecursively_unfold, Hproper; [discriminate|].
  destruct (RmDir_loop _ path (ReadDir path fs) true fs) as [[[res f1] e1]|] eqn:L;
    [|discriminate].
  destruct (RmDir_loop_sound _ path IH _ _ _ _ _ _ L) as [V R].
  destruct (RmDir path f1) as [err f2] eqn:D.
  intros H. inversion H; subst. clear H.
  apply orb_false_iff in Hproper. destruct Hproper as [Hne Hsp].
  apply String.eqb_neq in Hne.
  split; [now apply Removes_tree with (fs1 := f1)|].
  cbn [deletions_succeeded forallb deletion_ok]. fold (deletions_succeeded (e1 ++ [EvRmDir path err])).
  rewrite deletions_succeeded_app.
  cbn [deletions_succeeded forallb deletion_ok].
  destruct (EError_eqb err ERR_OK), (deletions_succeeded e1); reflexivity.
Qed.

(** More fuel does not change the result of a run. *)
Lemma RmDir_loop_more_fuel (rec rec' : string -> FS -> run bool) (dirName : string) :
  (forall path fs out, rec path fs = Some out -> rec' path fs = Some out) ->
  forall allFiles res fs out,
    RmDir_loop rec dirName allFiles res fs = Some out ->
    RmDir_loop rec' dirName allFiles res fs = Some out.
Proof.
  intros Hrec. induction allFiles as [|file rest IH]; intros res fs out; simpl;
    [trivial|].
  destruct (RmDir_visit rec dirName file res fs) as [[[r1 f1] e1]|] eqn:V;
    [|discriminate].
  assert (V' : RmDir_visit rec' dirName file res fs = Some (r1, f1, e1)).
  { revert V. unfold RmDir_visit.
    destruct (GetFileType _ fs) as [err type].
    destruct (negb (EError_eqb err ERR_OK)); [trivial|].
    destruct (EFileType_eqb type FILE_TYPE_DIRECTORY); [|trivial].
    destruct (IsSpecialDirName file); [trivial|].
    destruct (rec _ fs) as [out1|] eqn:C; [|discriminate].
    now rewrite (Hrec _ _ _ C). }
  rewrite V'.
  destruct (RmDir_loop rec dirName rest r1 f1) as [out2|] eqn:L; [|discriminate].
  now rewrite (IH _ _ _ L).
Qed.

Lemma RmDirRecursively_more_fuel (fuel : nat) :
  forall dirName fs out,
    RmDirRecursively fuel dirName fs = Some out ->
    RmDirRecursively (S fuel) dirName fs = Some out.
Proof.
  induction fuel as [|fuel IH]; intros dirName fs out;
    rewrite (RmDirRecursively_unfold (S _)), RmDirRecursively_unfold;
    destruct (String.eqb dirName "" || IsSpecialDirName dirName); trivial;
    [discriminate|].
  destruct (RmDir_loop (RmDirRecursively fuel) dirName _ true fs) as [out1|] eqn:L;
    [|discriminate].
  now rewrite (RmDir_loop_more_fuel _ _ dirName IH _ _ _ _ L).
Qed.

Lemma RmDirRecursively_fuel_le (fuel fuel' : nat) (dirName : string) (fs : FS) out :
  fuel <= fuel' ->
  RmDirRecursively fuel dirName fs = Some out ->
  RmDirRecursively fuel' dirName fs = Some out.
Proof.
  induction 1 as [|fuel' _ IH]; [trivial|].
  intros H. apply RmDirRecursively_more_fuel, IH, H.
Qed.

(** Every entry handed to the walk is queried, whatever became of the
    entries before it. *)
Lemma Visits_queries_every_entry dirName allFiles fs evs fs' :
  Visits dirName allFiles fs evs fs' ->
  forall file, In file allFiles ->
    exists result, In (EvFileType (JoinFoldersToPath dirName file) result) evs.
Proof.
  induction 1 as [ | d f rest fs0 err type evs0 fs1 Q E V IH
                   | d f rest fs0 evs0 fs1 Q P V IH
                   | d f rest fs0 evs1 fs1 evs2 fs2 Q P R V IH
                   | d f rest fs0 type ok fs1 evs0 fs2 Q T D V IH ];
    intros file Hin; [destruct Hin | | | |];
    (destruct Hin as [->|Hin];
     [eexists; left; reflexivity
     | destruct (IH _ Hin) as [result Hr]; exists result; simpl;
       rewrite ?in_app_iff; auto]).
Qed.

End Removal.

(** ** Termination of the recursive walks

    The walks descend through paths that grow with every level, and the
    type query refuses a path beyond the length limit of the system, so
    the nesting of the calls is bounded on any implementation of the
    primitives whatever: no assumption is made that the directory
    structure is a tree. *)

Section BoundedPaths.

Context {impl : PlatformImpl}.

Variable PATH_MAX : nat.

Hypothesis name_too_long :
  forall path fs, fst (GetFileType path fs) = ERR_OK -> String.length path <= PATH_MAX.

Hypothesis entries_are_named :
  forall directory fs, ~ In "" (ReadDir directory fs).

Lemma listed_entry_named (directory : string) (fs : FS) (file : string) :
  In file (ReadDir directory fs) -> file <> "".
Proof. intros Hin ->. exact (entries_are_named _ _ Hin). Qed.

Lemma RmDir_loop_terminates (rec : string -> FS -> run bool) (dirName : string)
    (allFiles : list string) :
  (forall file fs type,
     In file allFiles ->
     GetFileType (JoinFoldersToPath dirName file) fs = (ERR_OK, type) ->
     exists out, rec (JoinFoldersToPath dirName file) fs = Some out) ->
  forall res fs, exists out, RmDir_loop rec dirName allFiles res fs = Some out.
Proof.
  induction allFiles as [|file rest IH]; intros Hrec res fs; simpl.
  - eexists; reflexivity.
  - assert (V : exists out, RmDir_visit rec dirName file res fs = Some out).
    { unfold RmDir_visit.
      destruct (GetFileType (JoinFoldersToPath dirName file) fs) as [err type] eqn:Q.
      destruct (EError_eqb err ERR_OK) eqn:E; simpl; [|eexists; reflexivity].
      apply EError_eqb_eq in E. subst err.
      destruct (EFileType_eqb type FILE_TYPE_DIRECTORY).
      - destruct (IsSpecialDirName file); [eexists; reflexivity|].
        destruct (Hrec file fs type (or_introl eq_refl) Q) as [[[ok f1] e1] ->].
        eexists; reflexivity.
      - destruct (DeleteFileX _ fs). eexists; reflexivity. }
    destruct V as [[[r1 f1] e1] ->].
    destruct (IH (fun f fs0 t Hin => Hrec f fs0 t (or_intror Hin)) r1 f1)
      as [[[r2 f2] e2] ->].
    eexists; reflexivity.
Qed.

Lemma RmDirRecursively_terminates (n : nat) :
  forall dirName fs,
    PATH_MAX < String.length dirName + n ->
    exists out, RmDirRecursively (S n) dirName fs = Some out.
Proof.
  induction n as [|n IH]; intros dirName fs Hlen;
    rewrite RmDirRecursively_unfold;
    (destruct (String.eqb dirName "" || IsSpecialDirName dirName);
     [eexists; reflexivity|]).
  - destruct (RmDir_loop_terminates (RmDirRecursively 0) dirName (ReadDir dirName fs))
      with (res := true) (fs := fs) as [[[r1 f1] e1] ->].
    { intros file fs0 type Hin Q. exfalso.
      pose proof (name_too_long (JoinFoldersToPath dirName file) fs0) as B.
      rewrite Q in B. specialize (B eq_refl).
      pose proof (JoinFoldersToPath_longer dirName file (listed_entry_named _ _ _ Hin)).
      lia. }
    destruct (RmDir dirName f1). eexists; reflexivity.
  - destruct (RmDir_loop_terminates (RmDirRecursively (S n)) dirName (ReadDir dirName fs))
      with (res := true) (fs := fs) as [[[r1 f1] e1] ->].
    { intros file fs0 type Hin Q. apply IH.
      pose proof (JoinFoldersToPath_longer dirName file (listed_entry_named _ _ _ Hin)).
      lia. }
    destruct (RmDir dirName f1). eexists; reflexivity.
Qed.

(** C1.  On a name that is neither empty nor a pseudo-entry
    RmDirRecursively returns; its run is the walk of the specification:
    every listed entry is queried in turn whatever happened before it,
    an entry whose query fails is skipped, a directory that is not a
    pseudo-entry is removed by recursion, any other entry by a file
    deletion, and the directory itself is removed last; the value
    returned is true exactly when every deletion attempted in the run
    succeeded. *)
Theorem RmDirRecursively_best_effort (dirName : string) (fs : FS) :
  dirName <> "" ->
  IsSpecialDirName dirName = false ->
  exists fuel res fs' evs,
    (forall fuel', fuel <= fuel' ->
                   RmDirRecursively fuel' dirName fs = Some (res, fs', evs)) /\
    Removes dirName fs evs fs' /\
    (res = true <-> deletions_succeeded evs = true) /\
    (forall file, In file (ReadDir dirName fs) ->
       exists result, In (EvFileType (JoinFoldersToPath dirName file) result) evs) /\
    (exists err, In (EvRmDir dirName err) evs).
Proof.
  intros Hne Hsp.
  assert (Hproper : (String.eqb dirName "" || IsSpecialDirName dirName) = false).
  { apply orb_false_iff. split; [now apply String.eqb_neq | exact Hsp]. }
  destruct (RmDirRecursively_terminates (S PATH_MAX) dirName fs) as [[[res fs'] evs] Run];
    [lia|].
  exists (S (S PATH_MAX)), res, fs', evs.
  destruct (RmDirRecursively_sound _ _ _ _ _ _ Hproper Run) as [Walk Ok].
  split; [|split; [exact Walk|split; [now rewrite Ok|]]].
  - intros fuel' Hle. exact (RmDirRecursively_fuel_le _ _ _ _ _ Hle Run).
  - inversion Walk as [d fs0 evs0 fs1 err fs2 _ _ V D]; subst. split.
    + intros file Hin.
      destruct (Visits_queries_every_entry _ _ _ _ _ V file Hin) as [result Hr].
      exists result. right. apply in_or_app. now left.
    + exists err. right. apply in_or_app. right. now left.
Qed.

(** *** Recursive listing *)

Variable fs : FS.

Lemma GetFilesByType_single_bit (wanted : EFileType) (directory : string)
    (outFiles : TFilesWithType) :
  GetFilesByType directory (EFileType_bits wanted) fs outFiles
  = outFiles ++ map (fun file => (file, wanted))
                    (filter (has_type fs directory wanted) (ReadDir directory fs)).
Proof.
  unfold GetFilesByType. rewrite GetFilesByRegExp_everything.
  revert outFiles. induction (ReadDir directory fs) as [|file rest IH];
    intros outFiles; simpl.
  - now rewrite app_nil_r.
  - rewrite IH. unfold GetFilesByType_step, has_type.
    destruct (GetFileType (JoinFoldersToPath directory file) fs) as [err type].
    destruct (EError_eqb err ERR_OK); simpl; [|reflexivity].
    destruct wanted, type; simpl; try reflexivity;
      now rewrite <- app_assoc.
Qed.

Lemma push_files_regular (directory : string) (names : list string)
    (filesList : FilesList) :
  push_files directory (map (fun file => (file, FILE_TYPE_REGULAR)) names) filesList
  = Ret (filesList ++ map (JoinPath directory) names).
Proof.
  revert filesList. induction names as [|file rest IH]; intros filesList; simpl.
  - now rewrite app_nil_r.
  - rewrite IH, <- app_assoc. reflexivity.
Qed.

Lemma filter_filter {A : Type} (f g : A -> bool) (l : list A) :
  filter g (filter f l) = filter (fun x => f x && g x) l.
Proof.
  induction l as [|x l IH]; simpl; [reflexivity|].
  destruct (f x); simpl; [|exact IH].
  destruct (g x); now rewrite IH.
Qed.

Lemma recurse_subdirs_sound rec (directory : string) :
  listed_call fs rec ->
  forall names filesList res,
    (forall subdir, In subdir names ->
       In subdir (ReadDir directory fs) /\
       has_type fs directory FILE_TYPE_DIRECTORY subdir = true) ->
    recurse_subdirs rec directory
      (map (fun file => (file, FILE_TYPE_DIRECTORY)) names) filesList = Some res ->
    exists below,
      res = Ret (filesList ++ concat below) /\
      Forall2 (fun subdir files => Listing fs (JoinPath directory subdir) files)
              (filter (fun subdir => negb (IsSpecialDirName subdir)) names) below /\
      forall path, In path (concat below) -> RegularUnder fs directory path.
Proof.
  intros Hrec. induction names as [|subdir rest IH]; intros filesList res Hnames; simpl.
  - intros H. inversion H; subst. exists []. simpl. rewrite app_nil_r.
    split; [reflexivity|]. split; [constructor|]. intros path [].
  - fold (IsSpecialDirName subdir).
    assert (Hrest : forall s, In s rest ->
              In s (ReadDir directory fs) /\
              has_type fs directory FILE_TYPE_DIRECTORY s = true)
      by (intros s Hs; apply Hnames; now right).
    destruct (IsSpecialDirName subdir) eqn:P; simpl.
    + intros H. exact (IH _ _ Hrest H).
    + destruct (rec (JoinPath directory subdir) filesList) as [res1|] eqn:C;
        [|discriminate].
      destruct (Hrec _ _ _ C) as [found [-> [L U]]].
      intros H. destruct (IH _ _ Hrest H) as [below [-> [F B]]].
      exists (found :: below). simpl. rewrite <- app_assoc.
      split; [reflexivity|]. split; [now constructor|].
      intros path Hin. apply in_app_or in Hin. destruct Hin as [Hin|Hin].
      * destruct (Hnames subdir (or_introl eq_refl)) as [Hl Ht].
        apply Regular_below with (subdir := subdir); [exact Hl| |now apply U].
        unfold is_subdir. now rewrite Ht, P.
      * now apply B.
Qed.

Lemma GetFilesRecursively_sound (fuel : nat) :
  listed_call fs
    (fun directory filesList => GetFilesRecursively fuel directory fs filesList).
Proof.
  induction fuel as [|fuel IH]; intros directory filesList res;
    cbn [GetFilesRecursively]; [discriminate|].
  rewrite !GetFilesByType_single_bit. simpl app.
  rewrite push_files_regular.
  intros H.
  apply (recurse_subdirs_sound _ directory IH) in H.
  - destruct H as [below [-> [F B]]].
    rewrite filter_filter in F.
    exists (map (JoinPath directory)
                (filter (has_type fs directory FILE_TYPE_REGULAR) (ReadDir directory fs))
            ++ concat below).
    split; [now rewrite <- app_assoc|]. split.
    + exact (Listing_dir fs directory below F).
    + intros path Hin. apply in_app_or in Hin. destruct Hin as [Hin|Hin]; [|now apply B].
      apply in_map_iff in Hin. destruct Hin as [file [<- Hin]].
      apply filter_In in Hin. destruct Hin as [Hl Ht].
      now apply Regular_here.
  - intros subdir Hin. now apply filter_In in Hin.
Qed.

Lemma Forall2_pick {A B : Type} (R : A -> B -> Prop) (xs : list A) (ys : list B) :
  Forall2 R xs ys -> forall x, In x xs -> exists y, In y ys /\ R x y.
Proof.
  induction 1 as [|x0 y0 xs ys HR _ IH]; intros x Hin; [destruct Hin|].
  destruct Hin as [->|Hin].
  - exists y0. split; [now left|exact HR].
  - destruct (IH x Hin) as [y [Hy Hxy]]. exists y. split; [now right|exact Hxy].
Qed.

(** A listing in the order of the specification misses no regular file
    under the directory. *)
Lemma Listing_complete (directory path : string) :
  RegularUnder fs directory path ->
  forall found, Listing fs directory found -> In path found.
Proof.
  induction 1 as [d file Hl Hr | d subdir path Hl Hs _ IH]; intros found L;
    inversion L as [d' below F]; subst; apply in_or_app.
  - left. apply in_map, filter_In. now split.
  - right. destruct (Forall2_pick _ _ _ F subdir) as [files [Hin Lsub]].
    + apply filter_In. now split.
    + apply in_concat. exists files. split; [exact Hin|]. now apply IH.
Qed.

Lemma recurse_subdirs_more_fuel rec rec' (directory : string) :
  (forall d l res, rec d l = Some res -> rec' d l = Some res) ->
  forall subdirs filesList res,
    recurse_subdirs rec directory subdirs filesList = Some res ->
    recurse_subdirs rec' directory subdirs filesList = Some res.
Proof.
  intros Hrec. induction subdirs as [|[subdir type] rest IH]; intros filesList res; simpl;
    [trivial|].
  destruct (negb (EFileType_eqb type FILE_TYPE_DIRECTORY)); [trivial|].
  destruct (String.eqb subdir "." || String.eqb subdir ".."); [apply IH|].
  destruct (rec (JoinPath directory subdir) filesList) as [res1|] eqn:C; [|discriminate].
  rewrite (Hrec _ _ _ C). destruct res1; trivial. apply IH.
Qed.

Lemma GetFilesRecursively_more_fuel (fuel : nat) :
  forall directory filesList res,
    GetFilesRecursively fuel directory fs filesList = Some res ->
    GetFilesRecursively (S fuel) directory fs filesList = Some res.
Proof.
  induction fuel as [|fuel IH]; intros directory filesList res; [discriminate|].
  intros H. simpl in H |- *.
  destruct (push_files directory _ filesList) as [filesList1| |]; trivial.
  revert H. apply recurse_subdirs_more_fuel. intros d l r. apply IH.
Qed.

Lemma GetFilesRecursively_fuel_le (fuel fuel' : nat) (directory : string)
    (filesList : FilesList) res :
  fuel <= fuel' ->
  GetFilesRecursively fuel directory fs filesList = Some res ->
  GetFilesRecursively fuel' directory fs filesList = Some res.
Proof.
  induction 1 as [|fuel' _ IH]; [trivial|].
  intros H. apply GetFilesRecursively_more_fuel, IH, H.
Qed.

Lemma recurse_subdirs_terminates rec (directory : string) (names : list string) :
  (forall subdir filesList,
     In subdir names ->
     exists res, rec (JoinPath directory subdir) filesList = Some res) ->
  forall filesList,
    exists res,
      recurse_subdirs rec directory
        (map (fun file => (file, FILE_TYPE_DIRECTORY)) names) filesList = Some res.
Proof.
  induction names as [|subdir rest IH]; intros Hrec filesList; simpl.
  - eexists; reflexivity.
  - assert (Hrest : forall s l, In s rest -> exists res, rec (JoinPath directory s) l = Some res)
      by (intros s l Hs; apply Hrec; now right).
    destruct (String.eqb subdir "." || String.eqb subdir ".."); [now apply IH|].
    destruct (Hrec subdir filesList (or_introl eq_refl)) as [res1 ->].
    destruct res1; try (eexists; reflexivity). now apply IH.
Qed.

Lemma GetFilesRecursively_terminates (n : nat) :
  forall directory filesList,
    PATH_MAX < String.length directory + n ->
    exists res, GetFilesRecursively (S n) directory fs filesList = Some res.
Proof.
  induction n as [|n IH]; intros directory filesList Hlen;
    cbn [GetFilesRecursively];
    rewrite !GetFilesByType_single_bit; simpl app;
    rewrite push_files_regular;
    apply recurse_subdirs_terminates;
    intros subdir l Hin; apply filter_In in Hin; destruct Hin as [Hl Ht];
    unfold has_type in Ht;
    pose proof (name_too_long (JoinFoldersToPath directory subdir) fs) as B;
    destruct (GetFileType (JoinFoldersToPath directory subdir) fs) as [err type];
    apply andb_true_iff in Ht; destruct Ht as [Ht _];
    apply EError_eqb_eq in Ht; specialize (B Ht);
    pose proof (JoinPath_longer directory subdir (listed_entry_named _ _ _ Hl));
    pose proof (JoinPath_shorter directory subdir).
  - exfalso. lia.
  - apply IH. lia.
Qed.

(** A path under the directory is that of an entry which the type query
    reports as a regular file, so never that of a directory. *)
Lemma RegularUnder_is_regular (directory path : string) :
  RegularUnder fs directory path ->
  exists parent file,
    path = JoinPath parent file /\
    In file (ReadDir parent fs) /\
    GetFileType (JoinFoldersToPath parent file) fs = (ERR_OK, FILE_TYPE_REGULAR).
Proof.
  induction 1 as [d file Hl Hr | d subdir path Hl Hs _ IH]; [|exact IH].
  exists d, file. split; [reflexivity|]. split; [exact Hl|].
  unfold is_regular, has_type in Hr.
  destruct (GetFileType (JoinFoldersToPath d file) fs) as [err type].
  apply andb_true_iff in Hr. destruct Hr as [He Ht].
  apply EError_eqb_eq in He. apply EFileType_eqb_eq in Ht. now subst.
Qed.

(** C2.  GetFilesRecursively returns, without a failed check, the list
    it was given followed by the files found: the regular files of the
    directory in listing order, then what each subdirectory other than
    the pseudo-entries yields in turn; a path is among the files found
    exactly when it is that of a regular file somewhere under the
    directory, and each one is the path of an entry typed regular, none
    that of a directory. *)
Theorem GetFilesRecursively_lists_regular_files (directory : string)
    (filesList : FilesList) :
  exists fuel found,
    (forall fuel', fuel <= fuel' ->
       GetFilesRecursively fuel' directory fs filesList
       = Some (Ret (filesList ++ found))) /\
    Listing fs directory found /\
    (forall path, In path found <-> RegularUnder fs directory path) /\
    (forall path, In path found ->
       exists parent file,
         path = JoinPath parent file /\
         In file (ReadDir parent fs) /\
         GetFileType (JoinFoldersToPath parent file) fs = (ERR_OK, FILE_TYPE_REGULAR)).
Proof.
  destruct (GetFilesRecursively_terminates (S PATH_MAX) directory filesList) as [res Run];
    [lia|].
  destruct (GetFilesRecursively_sound _ _ _ _ Run) as [found [-> [L U]]].
  exists (S (S PATH_MAX)), found. split; [|split; [exact L|split]].
  - intros fuel' Hle. exact (GetFilesRecursively_fuel_le _ _ _ _ _ Hle Run).
  - intros path. split; [apply U|]. intros R. exact (Listing_complete _ _ R _ L).
  - intros path Hin. exact (RegularUnder_is_regular _ _ (U path Hin)).
Qed.

End BoundedPaths.

(** ** The walks on the list filesystem *)

Lemma ListFS_name_too_long :
  forall path fs,
    fst (GetFileType (PlatformImpl := ListFS.impl) path fs) = ERR_OK ->
    String.length path <= ListFS.path_max.
Proof.
  intros path fs.
  change (GetFileType path fs) with (ListFS.get_file_type path fs).
  unfold ListFS.get_file_type.
  destruct (Nat.ltb_spec ListFS.path_max (String.length path)) as [Hlt|Hle].
  - discriminate.
  - intros _. exact Hle.
Qed.

Lemma ListFS_entries_are_named :
  forall directory fs, ~ In "" (ReadDir (PlatformImpl := ListFS.impl) directory fs).
Proof.
  intros directory fs.
  change (ReadDir directory fs) with (ListFS.read_dir directory fs).
  unfold ListFS.read_dir. intros Hin.
  apply in_map_iff in Hin. destruct Hin as [n [Hname Hin]].
  apply filter_In in Hin. destruct Hin as [_ Hl].
  unfold ListFS.listed_under in Hl. rewrite Hname in Hl.
  rewrite andb_false_r in Hl. discriminate.
Qed.

Lemma RmDirRecursively_refuses_special_names_sample :
  RmDirRecursively (impl := ListFS.impl) 0 ".." ListFS.sample_tree
  = Some (false, ListFS.sample_tree, []).
Proof.
  apply (RmDirRecursively_refuses_special_names (impl := ListFS.impl)).
  right. right. reflexivity.
Defined.

(** One file of the tree cannot be deleted: its siblings and the
    subdirectory are deleted all the same, the root stays with the locked
    file in it, and the result is false. *)
Lemma RmDirRecursively_best_effort_locked_tree :
  exists fuel,
    forall fuel', fuel <= fuel' ->
      RmDirRecursively (impl := ListFS.impl) fuel' "root" ListFS.locked_tree
      = Some (false,
              [ListFS.dir "" "root"; ListFS.locked_file "root" "keep.dat"],
              [EvList "root" ".*";
               EvFileType "root/keep.dat" (ERR_OK, FILE_TYPE_REGULAR);
               EvDeleteFile "root/keep.dat" false;
               EvFileType "root/a.txt" (ERR_OK, FILE_TYPE_REGULAR);
               EvDeleteFile "root/a.txt" true;
               EvFileType "root/sub" (ERR_OK, FILE_TYPE_DIRECTORY);
               EvList "root/sub" ".*";
               EvFileType "root/sub/b.txt" (ERR_OK, FILE_TYPE_REGULAR);
               EvDeleteFile "root/sub/b.txt" true;
               EvRmDir "root/sub" ERR_OK;
               EvRmDir "root" ERR_DIRECTORY_NOT_EMPTY]).
Proof.
  destruct (RmDirRecursively_best_effort (impl := ListFS.impl) ListFS.path_max
              ListFS_name_too_long ListFS_entries_are_named "root" ListFS.locked_tree)
    as [fuel [res [fs' [evs [Run _]]]]]; [discriminate | reflexivity |].
  exists (Nat.max fuel 2). intros fuel' Hle.
  rewrite (Run fuel') by lia. rewrite <- (Run (Nat.max fuel 2)) by lia.
  apply (RmDirRecursively_fuel_le (impl := ListFS.impl) 2); [lia | reflexivity].
Defined.

(** root/{a.txt, sub/{b.txt}} *)
Lemma GetFilesRecursively_lists_regular_files_sample :
  exists fuel,
    forall fuel', fuel <= fuel' ->
      GetFilesRecursively (impl := ListFS.impl) fuel' "root" ListFS.sample_tree []
      = Some (Ret ["root/a.txt"; "root/sub/b.txt"]).
Proof.
  destruct (GetFilesRecursively_lists_regular_files (impl := ListFS.impl) ListFS.path_max
              ListFS_name_too_long ListFS_entries_are_named ListFS.sample_tree "root" [])
    as [fuel [found [Run _]]].
  exists (Nat.max fuel 2). intros fuel' Hle.
  rewrite (Run fuel') by lia. rewrite <- (Run (Nat.max fuel 2)) by lia.
  apply (GetFilesRecursively_fuel_le (impl := ListFS.impl) ListFS.sample_tree 2);
    [lia | reflexivity].
Defined.


(** * Further properties *)

(** ** ErrnoToError, read backwards *)

Section ErrnoInverse.

Variables ENOENT EACCES ENOTEMPTY EEXIST ENAMETOOLONG ENOTDIR ELOOP EIO : Z.

Local Notation "'translated'" :=
  (ErrnoToError ENOENT EACCES ENOTEMPTY EEXIST ENAMETOOLONG ENOTDIR ELOOP EIO).

(** X1.  Whatever the values of the eight codes, the kind returned tells
    the code: ERR_OK is never returned, each of the eight kinds is
    returned only for its own code, and ERR_UNKNOWN exactly for a code
    that is none of the eight. *)
Theorem ErrnoToError_kind_determines_code (errno : Z) :
  translated errno <> ERR_OK /\
  (translated errno = ERR_FILE_DOES_NOT_EXIST -> errno = ENOENT) /\
  (translated errno = ERR_ACCESS_FAILED -> errno = EACCES) /\
  (translated errno = ERR_DIRECTORY_NOT_EMPTY -> errno = ENOTEMPTY) /\
  (translated errno = ERR_FILE_ALREADY_EXISTS -> errno = EEXIST) /\
  (translated errno = ERR_NAME_TOO_LONG -> errno = ENAMETOOLONG) /\
  (translated errno = ERR_NOT_A_DIRECTORY -> errno = ENOTDIR) /\
  (translated errno = ERR_SYMLINK_LOOP -> errno = ELOOP) /\
  (translated errno = ERR_IO_ERROR -> errno = EIO) /\
  (translated errno = ERR_UNKNOWN <->
   ~ In errno (errno_labels ENOENT EACCES ENOTEMPTY EEXIST ENAMETOOLONG ENOTDIR ELOOP EIO)).
Proof.
  unfold ErrnoToError, errno_labels. simpl.
  repeat match goal with
         | |- context [(?a =? ?b)%Z] => destruct (Z.eqb_spec a b)
         end;
    repeat match goal with |- _ /\ _ => split end;
    try discriminate; try (intros _; assumption);
    try (split; [discriminate | intros H; exfalso; apply H; subst; tauto]).
  split; [intros _ | reflexivity].
  intuition congruence.
Qed.

End ErrnoInverse.

Lemma ErrnoToError_kind_determines_code_linux :
  ErrnoToError 2 13 39 17 36 20 40 5 17 = ERR_FILE_ALREADY_EXISTS /\
  ~ In 1%Z (errno_labels 2 13 39 17 36 20 40 5).
Proof.
  split; [reflexivity|].
  apply (ErrnoToError_kind_determines_code 2 13 39 17 36 20 40 5 1). reflexivity.
Defined.

(** ** CpuCores *)

(** X2.  For every count that fits an unsigned, CpuCores is at least one
    and still fits; a positive count is returned as it is and only the
    count zero is replaced. *)
Theorem CpuCores_at_least_one (hardware_concurrency : Z) :
  (0 <= hardware_concurrency < 2 ^ 32)%Z ->
  (1 <= CpuCores hardware_concurrency < 2 ^ 32)%Z /\
  (CpuCores hardware_concurrency <> hardware_concurrency -> hardware_concurrency = 0%Z) /\
  CpuCores (CpuCores hardware_concurrency) = CpuCores hardware_concurrency.
Proof.
  intros Hrange. unfold CpuCores.
  destruct (Z.ltb_spec 0 hardware_concurrency) as [Hpos|Hzero].
  - split; [lia|]. split; [congruence|].
    destruct (Z.ltb_spec 0 hardware_concurrency); [reflexivity | lia].
  - split; [simpl; lia|]. split; [lia | reflexivity].
Qed.

Lemma CpuCores_at_least_one_sample :
  (1 <= CpuCores 0 < 2 ^ 32)%Z /\ CpuCores 8 = 8%Z.
Proof.
  split.
  - apply (CpuCores_at_least_one 0). lia.
  - reflexivity.
Defined.

(** ** DebugPrint *)

(** X3.  The texts of the ten error kinds are pairwise different and none
    is empty, so a printed error tells its kind. *)
Theorem DebugPrint_EError_injective (a b : EError) :
  (DebugPrint_EError a = DebugPrint_EError b -> a = b) /\
  DebugPrint_EError a <> "".
Proof.
  split.
  - destruct a, b; simpl; intros H; try reflexivity; discriminate H.
  - destruct a; discriminate.
Qed.

Lemma DebugPrint_EError_injective_sample :
  DebugPrint_EError ERR_IO_ERROR = "An I/O error occurred." /\
  ERR_IO_ERROR = ERR_IO_ERROR.
Proof.
  split; [reflexivity|].
  exact (proj1 (DebugPrint_EError_injective ERR_IO_ERROR ERR_IO_ERROR) eq_refl).
Defined.

(** X4.  The texts of the three charging states are pairwise different;
    the text of the unknown state is the one of the unknown error. *)
Theorem DebugPrint_ChargingStatus_injective (a b : ChargingStatus) :
  (DebugPrint_ChargingStatus a = DebugPrint_ChargingStatus b -> a = b) /\
  DebugPrint_ChargingStatus ChargingStatus_Unknown = DebugPrint_EError ERR_UNKNOWN.
Proof.
  split; [|reflexivity].
  destruct a, b; simpl; intros H; try reflexivity; discriminate H.
Qed.

Lemma DebugPrint_ChargingStatus_injective_sample :
  DebugPrint_ChargingStatus ChargingStatus_Plugged = "Plugged" /\
  ChargingStatus_Plugged = ChargingStatus_Plugged.
Proof.
  split; [reflexivity|].
  exact (proj1 (DebugPrint_ChargingStatus_injective
                  ChargingStatus_Plugged ChargingStatus_Plugged) eq_refl).
Defined.

(** ** GetFontNames *)

(** X5.  GetFontNames fails its assertion on a list that is not empty.
    On the empty list, when the platform only adds to the list it is
    given, the result starts with the seven default fonts in their order
    and the message logged carries the list returned. *)
Theorem GetFontNames_defaults_first (GetSystemFontNames : FilesList -> FilesList)
    (res : FilesList) :
  (res <> [] -> GetFontNames GetSystemFontNames res = Fatal ["ASSERT"]) /\
  ((forall l, exists added, GetSystemFontNames l = l ++ added) ->
   exists added,
     GetFontNames GetSystemFontNames []
     = Ret (default_font_names ++ added,
            [(LINFO, [LogStr "Available font files:";
                      LogFiles (default_font_names ++ added)])]) /\
     firstn 7 (default_font_names ++ added) = default_font_names).
Proof.
  split.
  - destruct res; [congruence | reflexivity].
  - intros Happends. destruct (Happends default_font_names) as [added E].
    exists added. unfold GetFontNames, ASSERT. simpl is_empty. cbv iota.
    change ([] ++ default_font_names) with default_font_names.
    rewrite E. split; reflexivity.
Qed.

Lemma GetFontNames_defaults_first_sample :
  GetFontNames (fun l => l ++ ["system.ttf"]) ["x.ttf"] = Fatal ["ASSERT"] /\
  exists added,
    GetFontNames (fun l => l ++ ["system.ttf"]) []
    = Ret (default_font_names ++ added,
           [(LINFO, [LogStr "Available font files:";
                     LogFiles (default_font_names ++ added)])]) /\
    firstn 7 (default_font_names ++ added) = default_font_names.
Proof.
  pose proof (GetFontNames_defaults_first (fun l => l ++ ["system.ttf"]) ["x.ttf"]) as [A B].
  split; [apply A; discriminate|].
  apply B. intros l. exists ["system.ttf"]. reflexivity.
Defined.

(** ** Worker lifecycle, round trip *)

(** X6.  Starting the workers of a platform that has none and shutting
    them down again gives back the platform as it was; neither step
    touches the root directories. *)
Theorem RunThreads_ShutdownThreads_round_trip (p : Platform) :
  handles_exist p = (false, false, false) ->
  exists p1,
    RunThreads p = Ret p1 /\
    roots p1 = roots p /\
    ShutdownThreads p1 = Ret p.
Proof.
  destruct p as [w r s n f b]. unfold handles_exist. simpl.
  destruct n, f, b; simpl; try discriminate. intros _.
  eexists. split; [reflexivity|]. split; reflexivity.
Qed.

Lemma RunThreads_ShutdownThreads_round_trip_sample :
  exists p1,
    RunThreads ListFS.sample_platform = Ret p1 /\
    roots p1 = roots ListFS.sample_platform /\
    ShutdownThreads p1 = Ret ListFS.sample_platform.
Proof.
  apply (RunThreads_ShutdownThreads_round_trip ListFS.sample_platform). reflexivity.
Defined.

(** ** ReadPathForFile on any specifier *)

Section Resolution.

Context {impl : PlatformImpl}.

Lemma ReadPathForFile_loop_returns (p : Platform) (fs : FS)
    (file searchScope rest path : string) :
  ReadPathForFile_loop p fs file searchScope rest = Ret path ->
  IsFileExistsByFullPath path fs = true /\
  exists c, In c (list_ascii_of_string rest) /\ scope_candidate p file c = Some path.
Proof.
  induction rest as [|c rest IH]; simpl; [discriminate|].
  destruct (scope_candidate p file c) as [fullPath|] eqn:C; [|discriminate].
  destruct (IsFileExistsByFullPath fullPath fs) eqn:E.
  - intros H. inversion H; subst. split; [exact E|]. exists c. auto.
  - intros H. destruct (IH H) as [Hex [c' [Hin Hc]]].
    split; [exact Hex|]. exists c'. auto.
Qed.

Lemma ReadPathForFile_loop_raises (p : Platform) (fs : FS)
    (file searchScope rest : string) (e : Exception) :
  ReadPathForFile_loop p fs file searchScope rest = Raise e ->
  e = FileAbsentException (absence_diagnostic p file searchScope) /\
  scope_chars_ok rest = true /\
  forall path, In path (candidate_paths p file rest) ->
               IsFileExistsByFullPath path fs = false.
Proof.
  induction rest as [|c rest IH]; simpl.
  - intros H. inversion H. split; [reflexivity|]. split; [reflexivity|]. intros path [].
  - destruct (is_scope_char c) eqn:S.
    + rewrite (is_scope_char_candidate p file c S).
      destruct (IsFileExistsByFullPath (scope_root p c ++ file) fs) eqn:E; [discriminate|].
      intros H. destruct (IH H) as [He [Hok Habs]].
      split; [exact He|]. split; [exact Hok|].
      intros path [<-|Hin]; [exact E | now apply Habs].
    + rewrite (not_scope_char_candidate p file c S). discriminate.
Qed.

(** X7.  Whatever the specifier, a path returned by ReadPathForFile
    exists and is the candidate of one of the characters of the
    specifier (of wrf for the empty one); and the exception is thrown
    only when every character is one of w, r, s, f and no candidate
    exists. *)
Theorem ReadPathForFile_result_is_justified (p : Platform) (fs : FS)
    (file scope : string) :
  (forall path,
     ReadPathForFile p fs file scope = Ret path ->
     IsFileExistsByFullPath path fs = true /\
     exists c, In c (list_ascii_of_string (default_scope scope)) /\
               scope_candidate p file c = Some path) /\
  (forall e,
     ReadPathForFile p fs file scope = Raise e ->
     e = FileAbsentException (absence_diagnostic p file (default_scope scope)) /\
     scope_chars_ok scope = true /\
     forall path, In path (candidate_paths p file (default_scope scope)) ->
                  IsFileExistsByFullPath path fs = false).
Proof.
  unfold ReadPathForFile. fold (default_scope scope). split.
  - intros path H. exact (ReadPathForFile_loop_returns _ _ _ _ _ _ H).
  - intros e H. destruct (ReadPathForFile_loop_raises _ _ _ _ _ _ H) as [He [Hok Habs]].
    split; [exact He|]. split; [|exact Habs].
    unfold default_scope in Hok. destruct (String.eqb_spec scope "") as [->|_];
      [reflexivity | exact Hok].
Qed.

End Resolution.

Lemma ReadPathForFile_result_is_justified_sample :
  IsFileExistsByFullPath (PlatformImpl := ListFS.impl)
    "resources/countries.txt" ListFS.both_roots = true /\
  forall path,
    In path (candidate_paths ListFS.sample_platform "absent.txt" "wrf") ->
    IsFileExistsByFullPath (PlatformImpl := ListFS.impl) path ListFS.both_roots = false.
Proof.
  pose proof (ReadPathForFile_result_is_justified (impl := ListFS.impl)
                ListFS.sample_platform ListFS.both_roots "countries.txt" "r") as [A _].
  pose proof (ReadPathForFile_result_is_justified (impl := ListFS.impl)
                ListFS.sample_platform ListFS.both_roots "absent.txt" "") as [_ B].
  split.
  - exact (proj1 (A "resources/countries.txt" eq_refl)).
  - exact (proj2 (proj2 (B _ eq_refl))).
Defined.

(** ** GetFilesByExt *)

Section ExtensionEdges.

Context {impl : PlatformImpl}.

(** X8.  GetFilesByExt fails an assertion on the empty extension and on
    one that does not start with a dot; on every other extension it
    returns the list it was given followed by names listed in the
    directory, in listing order. *)
Theorem GetFilesByExt_asserts_leading_dot (directory ext : string) (fs : FS)
    (outFiles : FilesList) :
  (first_char_is "."%char ext = false ->
   GetFilesByExt directory ext fs outFiles = Fatal ["ASSERT"]) /\
  (first_char_is "."%char ext = true ->
   exists keep : string -> bool,
     GetFilesByExt directory ext fs outFiles
     = Ret (outFiles ++ filter keep (ReadDir directory fs))).
Proof.
  unfold GetFilesByExt, ASSERT.
  destruct ext as [|c ext]; simpl.
  - split; [reflexivity | discriminate].
  - destruct (Ascii.eqb c "."); split; try discriminate; try reflexivity.
    intros _. eexists. unfold GetFilesByRegExp. reflexivity.
Qed.

End ExtensionEdges.

Lemma GetFilesByExt_asserts_leading_dot_sample :
  GetFilesByExt (impl := ListFS.impl) "maps" "mwm" ListFS.maps_dir [] = Fatal ["ASSERT"] /\
  GetFilesByExt (impl := ListFS.impl) "maps" "" ListFS.maps_dir [] = Fatal ["ASSERT"].
Proof.
  split.
  - apply (GetFilesByExt_asserts_leading_dot (impl := ListFS.impl)
             "maps" "mwm" ListFS.maps_dir []). reflexivity.
  - apply (GetFilesByExt_asserts_leading_dot (impl := ListFS.impl)
             "maps" "" ListFS.maps_dir []). reflexivity.
Defined.

Lemma GetFilesByExt_plain_extension_sample :
  exists found,
    GetFilesByExt (impl := ListFS.impl) "maps" ".mwm" ListFS.maps_dir ["kept"]
    = Ret (["kept"] ++ found) /\
    forall name, In name found <->
                 In name (ReadDir (PlatformImpl := ListFS.impl) "maps" ListFS.maps_dir)
                 /\ ends_in ".mwm" name.
Proof.
  apply (GetFilesByExt_plain_extension (impl := ListFS.impl) "maps" "mwm"
           ListFS.maps_dir ["kept"]). reflexivity.
Defined.

(** ** GetFilesByType *)

Section TypeFilter.

Context {impl : PlatformImpl}.

Lemma GetFilesByType_step_appends (directory : string) (typeMask : Z) (fs : FS)
    (outFiles : TFilesWithType) (file : string) :
  GetFilesByType_step directory typeMask fs outFiles file
  = outFiles ++
    (if passes_mask fs directory typeMask file
     then [(file, snd (GetFileType (JoinFoldersToPath directory file) fs))]
     else []).
Proof.
  unfold GetFilesByType_step, passes_mask.
  destruct (GetFileType (JoinFoldersToPath directory file) fs) as [err type]. simpl.
  destruct (EError_eqb err ERR_OK); simpl; [|now rewrite app_nil_r].
  destruct (Z.land typeMask (EFileType_bits type) =? 0)%Z; simpl;
    [now rewrite app_nil_r | reflexivity].
Qed.

Lemma GetFilesByType_fold (directory : string) (typeMask : Z) (fs : FS)
    (names : list string) (outFiles : TFilesWithType) :
  fold_left (GetFilesByType_step directory typeMask fs) names outFiles
  = outFiles ++
    map (fun file => (file, snd (GetFileType (JoinFoldersToPath directory file) fs)))
        (filter (passes_mask fs directory typeMask) names).
Proof.
  revert outFiles. induction names as [|file rest IH]; intros outFiles; simpl.
  - now rewrite app_nil_r.
  - rewrite IH, GetFilesByType_step_appends, <- app_assoc.
    destruct (passes_mask fs directory typeMask file); reflexivity.
Qed.

Lemma GetFilesByType_unfold (directory : string) (typeMask : Z) (fs : FS)
    (outFiles : TFilesWithType) :
  GetFilesByType directory typeMask fs outFiles
  = outFiles ++
    map (fun file => (file, snd (GetFileType (JoinFoldersToPath directory file) fs)))
        (filter (passes_mask fs directory typeMask) (ReadDir directory fs)).
Proof.
  unfold GetFilesByType. rewrite GetFilesByRegExp_everything. apply GetFilesByType_fold.
Qed.

Lemma GetFilesByType_member (directory : string) (typeMask : Z) (fs : FS)
    (file : string) (type : EFileType) :
  In (file, type) (GetFilesByType directory typeMask fs []) <->
  In file (ReadDir directory fs) /\
  GetFileType (JoinFoldersToPath directory file) fs = (ERR_OK, type) /\
  Z.land typeMask (EFileType_bits type) <> 0%Z.
Proof.
  rewrite GetFilesByType_unfold. simpl app. rewrite in_map_iff. split.
  - intros [f [E Hin]]. inversion E; subst. clear E.
    apply filter_In in Hin. destruct Hin as [Hl Hp].
    unfold passes_mask in Hp.
    destruct (GetFileType (JoinFoldersToPath directory file) fs) as [err t].
    apply andb_true_iff in Hp. destruct Hp as [He Hm].
    apply EError_eqb_eq in He. apply negb_true_iff, Z.eqb_neq in Hm.
    simpl. subst. auto.
  - intros [Hl [Q Hm]]. exists file. rewrite Q. split; [reflexivity|].
    apply filter_In. split; [exact Hl|].
    unfold passes_mask. rewrite Q. simpl. now apply negb_true_iff, Z.eqb_neq.
Qed.

(** X9.  GetFilesByType keeps the list it is given and adds, in listing
    order, the entries whose type query succeeds with a type in the mask,
    each with the type the query reported; an entry whose query fails is
    in no result. *)
Theorem GetFilesByType_selects_by_mask (directory : string) (typeMask : Z) (fs : FS)
    (outFiles : TFilesWithType) :
  GetFilesByType directory typeMask fs outFiles
  = outFiles ++ GetFilesByType directory typeMask fs [] /\
  map fst (GetFilesByType directory typeMask fs [])
  = filter (passes_mask fs directory typeMask) (ReadDir directory fs) /\
  (forall file type,
     In (file, type) (GetFilesByType directory typeMask fs []) <->
     In file (ReadDir directory fs) /\
     GetFileType (JoinFoldersToPath directory file) fs = (ERR_OK, type) /\
     Z.land typeMask (EFileType_bits type) <> 0%Z) /\
  (forall file,
     fst (GetFileType (JoinFoldersToPath directory file) fs) <> ERR_OK ->
     ~ In file (map fst (GetFilesByType directory typeMask fs []))).
Proof.
  split; [|split; [|split]].
  - now rewrite (GetFilesByType_unfold _ _ _ outFiles), (GetFilesByType_unfold _ _ _ []).
  - rewrite GetFilesByType_unfold. simpl app. rewrite map_map. simpl. apply map_id.
  - intros file type. apply GetFilesByType_member.
  - intros file Hfail Hin. apply in_map_iff in Hin. destruct Hin as [[f t] [E Hin]].
    simpl in E. subst f. apply GetFilesByType_member in Hin.
    destruct Hin as [_ [Q _]]. rewrite Q in Hfail. now apply Hfail.
Qed.

(** X10.  The entries for the union of two masks are those for the one
    mask together with those for the other, and the empty mask selects
    nothing. *)
Theorem GetFilesByType_mask_union (directory : string) (mask1 mask2 : Z) (fs : FS) :
  (forall file type,
     In (file, type) (GetFilesByType directory (Z.lor mask1 mask2) fs []) <->
     In (file, type) (GetFilesByType directory mask1 fs []) \/
     In (file, type) (GetFilesByType directory mask2 fs [])) /\
  GetFilesByType directory 0 fs [] = [].
Proof.
  split.
  - intros file type. rewrite !GetFilesByType_member.
    rewrite Z.land_lor_distr_l, Z.lor_eq_0_iff. split.
    + intros [Hl [Q Hm]].
      destruct (Z.eq_dec (Z.land mask1 (EFileType_bits type)) 0) as [E1|N1].
      * right. split; [exact Hl|]. split; [exact Q|]. intros E2. apply Hm. now split.
      * left. auto.
    + intros [[Hl [Q Hm]]|[Hl [Q Hm]]]; (split; [exact Hl|]; split; [exact Q|]);
        intros [E1 E2]; contradiction.
  - rewrite GetFilesByType_unfold. simpl app.
    replace (filter (passes_mask fs directory 0) (ReadDir directory fs)) with (@nil string);
      [reflexivity|].
    symmetry. induction (ReadDir directory fs) as [|f l IH]; simpl; [reflexivity|].
    unfold passes_mask at 1.
    destruct (GetFileType (JoinFoldersToPath directory f) fs) as [err t].
    simpl. rewrite andb_false_r. exact IH.
Qed.

Lemma IsDirectory_iff (path : string) (fs : FS) :
  IsDirectory path fs = true <-> GetFileType path fs = (ERR_OK, FILE_TYPE_DIRECTORY).
Proof.
  unfold IsDirectory. destruct (GetFileType path fs) as [err type].
  destruct (EError_eqb err ERR_OK) eqn:E; simpl.
  - apply EError_eqb_eq in E. subst. rewrite EFileType_eqb_eq.
    split; [now intros -> | now inversion 1].
  - apply EError_eqb_neq in E. split; [discriminate | inversion 1; congruence].
Qed.

(** X11.  Asked for directories, GetFilesByType returns the listed
    entries for which IsDirectory holds of the joined path, every one
    typed as a directory. *)
Theorem GetFilesByType_directories_are_IsDirectory (directory : string) (fs : FS) :
  forall file type,
    In (file, type)
       (GetFilesByType directory (EFileType_bits FILE_TYPE_DIRECTORY) fs []) <->
    In file (ReadDir directory fs) /\
    type = FILE_TYPE_DIRECTORY /\
    IsDirectory (JoinFoldersToPath directory file) fs = true.
Proof.
  intros file type. rewrite GetFilesByType_member, IsDirectory_iff. split.
  - intros [Hl [Q Hm]]. destruct type; simpl in Hm; try congruence. auto.
  - intros [Hl [-> Q]]. split; [exact Hl|]. split; [exact Q|]. discriminate.
Qed.

End TypeFilter.

Lemma GetFilesByType_selects_by_mask_sample :
  GetFilesByType (impl := ListFS.impl) "root" 6 ListFS.locked_tree [("kept", FILE_TYPE_UNKNOWN)]
  = [("kept", FILE_TYPE_UNKNOWN); ("keep.dat", FILE_TYPE_REGULAR);
     ("a.txt", FILE_TYPE_REGULAR); ("sub", FILE_TYPE_DIRECTORY)].
Proof.
  rewrite (proj1 (GetFilesByType_selects_by_mask (impl := ListFS.impl)
                    "root" 6 ListFS.locked_tree [("kept", FILE_TYPE_UNKNOWN)])).
  reflexivity.
Defined.

Lemma GetFilesByType_mask_union_sample :
  In ("sub", FILE_TYPE_DIRECTORY)
     (GetFilesByType (impl := ListFS.impl) "root" (Z.lor 2 4) ListFS.locked_tree []).
Proof.
  apply (proj1 (GetFilesByType_mask_union (impl := ListFS.impl) "root" 2 4 ListFS.locked_tree)).
  right. simpl. auto.
Defined.

Lemma GetFilesByType_directories_are_IsDirectory_sample :
  In ("sub", FILE_TYPE_DIRECTORY)
     (GetFilesByType (impl := ListFS.impl) "root" (EFileType_bits FILE_TYPE_DIRECTORY)
        ListFS.sample_tree []).
Proof.
  apply (GetFilesByType_directories_are_IsDirectory (impl := ListFS.impl)
           "root" ListFS.sample_tree).
  split; [simpl; auto 10|]. split; reflexivity.
Defined.

(** ** MkDirChecked *)

Section DirectoryCreation.

Context {impl : PlatformImpl}.

Variable MkDir : string -> FS -> EError * FS.

(** X12.  MkDirChecked leaves the filesystem as MkDir left it.  It
    returns true exactly when MkDir succeeded, or reported that the name
    exists and the name is then a directory; it logs nothing when it
    returns true and one error when it returns false. *)
Theorem MkDirChecked_true_iff_directory_there (dirName : string) (fs : FS) :
  forall ok fs' log,
    MkDirChecked MkDir dirName fs = (ok, fs', log) ->
    fs' = snd (MkDir dirName fs) /\
    (ok = true <->
     fst (MkDir dirName fs) = ERR_OK \/
     (fst (MkDir dirName fs) = ERR_FILE_ALREADY_EXISTS /\ IsDirectory dirName fs' = true)) /\
    (ok = true -> log = []) /\
    (ok = false -> exists parts, log = [(LERROR, parts)]).
Proof.
  intros ok fs' log H. unfold MkDirChecked in H.
  destruct (MkDir dirName fs) as [ret fs1]. simpl fst. simpl snd.
  rewrite IsDirectory_iff.
  assert (Hother :
            ret <> ERR_OK -> ret <> ERR_FILE_ALREADY_EXISTS ->
            (false, fs1, [(LERROR, [LogStr dirName; LogStr "can't be created:"; LogErr ret])])
            = (ok, fs', log) ->
            fs' = fs1 /\
            (ok = true <->
             ret = ERR_OK \/
             (ret = ERR_FILE_ALREADY_EXISTS /\
              GetFileType dirName fs' = (ERR_OK, FILE_TYPE_DIRECTORY))) /\
            (ok = true -> log = []) /\
            (ok = false -> exists parts, log = [(LERROR, parts)])).
  { intros N1 N2 E. inversion E; subst.
    split; [reflexivity|]. split; [|split].
    - split; [discriminate | intros [?|[? _]]; contradiction].
    - discriminate.
    - intros _. eexists. reflexivity. }
  destruct ret; try (apply Hother; [discriminate | discriminate | exact H]); clear Hother.
  - inversion H; subst. split; [reflexivity|]. split; [|split].
    + split; auto.
    + reflexivity.
    + discriminate.
  - unfold GetFileTypeChecked in H.
    destruct (GetFileType dirName fs1) as [err type] eqn:Q.
    destruct (EError_eqb err ERR_OK) eqn:E; simpl in H.
    + apply EError_eqb_eq in E. subst err.
      destruct (EFileType_eqb type FILE_TYPE_DIRECTORY) eqn:T; simpl in H;
        inversion H; subst; rewrite Q; (split; [reflexivity|]; split; [|split]).
      * apply EFileType_eqb_eq in T. subst type. split; auto.
      * reflexivity.
      * discriminate.
      * apply EFileType_eqb_neq in T.
        split; [discriminate | intros [?|[_ ?]]; congruence].
      * discriminate.
      * intros _. eexists. reflexivity.
    + apply EError_eqb_neq in E.
      inversion H; subst; rewrite Q. split; [reflexivity|]. split; [|split].
      * split; [discriminate | intros [?|[_ ?]]; congruence].
      * discriminate.
      * intros _. eexists. reflexivity.
Qed.

End DirectoryCreation.

Lemma MkDirChecked_true_iff_directory_there_sample :
  fst (fst (MkDirChecked (impl := ListFS.impl) ListFS_mk_dir "root/sub" ListFS.sample_tree))
  = true /\
  snd (MkDirChecked (impl := ListFS.impl) ListFS_mk_dir "root/sub" ListFS.sample_tree) = [].
Proof.
  destruct (MkDirChecked (impl := ListFS.impl) ListFS_mk_dir "root/sub" ListFS.sample_tree)
    as [[ok fs'] log] eqn:E.
  destruct (MkDirChecked_true_iff_directory_there (impl := ListFS.impl)
              ListFS_mk_dir "root/sub" ListFS.sample_tree ok fs' log E) as [Hfs [Hok [Hlog _]]].
  assert (T : ok = true).
  { apply Hok. right. split; [reflexivity|]. rewrite Hfs. reflexivity. }
  simpl. split; [exact T | exact (Hlog T)].
Defined.

(** ** RmDirRecursively goes down by entry names *)




Section Descent.

Context {impl : PlatformImpl}.

(** What the iteration of a directory and the type query of a POSIX
    system guarantee: an entry name is a single component, and a
    pseudo-entry that can be queried is a directory. *)
Hypothesis listed_names_are_components :
  forall directory fs name,
    In name (ReadDir directory fs) -> has_separator name = false.

Hypothesis pseudo_entries_are_directories :
  forall directory name fs type,
    IsSpecialDirName name = true ->
    GetFileType (JoinFoldersToPath directory name) fs = (ERR_OK, type) ->
    type = FILE_TYPE_DIRECTORY.




End Descent.




(** ** GetFilesRecursively and the list it is given *)

Lemma outcome_map_app (l1 l2 : FilesList) (o : outcome FilesList) :
  outcome_map (app l1) (outcome_map (app l2) o) = outcome_map (app (l1 ++ l2)) o.
Proof. destruct o; simpl; [now rewrite app_assoc | reflexivity | reflexivity]. Qed.

Section Accumulation.

Context {impl : PlatformImpl}.

Variable fs : FS.

Lemma push_files_accumulates (directory : string) (files : TFilesWithType) :
  forall filesList,
    push_files directory files filesList
    = outcome_map (app filesList) (push_files directory files []).
Proof.
  induction files as [|[file type] rest IH]; intros filesList; simpl.
  - now rewrite app_nil_r.
  - destruct (EFileType_eqb type FILE_TYPE_REGULAR); [|reflexivity].
    rewrite (IH (filesList ++ _)), (IH [_]). now rewrite outcome_map_app.
Qed.

Lemma recurse_subdirs_accumulates rec (directory : string) :
  (forall d l, rec d l = option_map (outcome_map (app l)) (rec d [])) ->
  forall subdirs filesList,
    recurse_subdirs rec directory subdirs filesList
    = option_map (outcome_map (app filesList)) (recurse_subdirs rec directory subdirs []).
Proof.
  intros Hrec. induction subdirs as [|[subdir type] rest IH]; intros filesList; simpl.
  - now rewrite app_nil_r.
  - destruct (negb (EFileType_eqb type FILE_TYPE_DIRECTORY)); [reflexivity|].
    destruct (String.eqb subdir "." || String.eqb subdir ".."); [apply IH|].
    rewrite (Hrec _ filesList).
    destruct (rec (JoinPath directory subdir) []) as [[found| |]|]; simpl; try reflexivity.
    rewrite (IH (filesList ++ found)), (IH found).
    destruct (recurse_subdirs rec directory rest []) as [o|]; simpl; [|reflexivity].
    now rewrite outcome_map_app.
Qed.

Lemma GetFilesRecursively_accumulates (fuel : nat) :
  forall directory filesList,
    GetFilesRecursively fuel directory fs filesList
    = option_map (outcome_map (app filesList)) (GetFilesRecursively fuel directory fs []).
Proof.
  induction fuel as [|fuel IH]; intros directory filesList; [reflexivity|].
  cbn [GetFilesRecursively].
  rewrite (push_files_accumulates directory _ filesList).
  destruct (push_files directory _ []) as [own| |]; simpl; try reflexivity.
  rewrite (recurse_subdirs_accumulates _ directory IH _ (filesList ++ own)).
  rewrite (recurse_subdirs_accumulates _ directory IH _ own).
  destruct (recurse_subdirs _ directory _ []) as [o|]; simpl; [|reflexivity].
  now rewrite outcome_map_app.
Qed.

(** X14.  What GetFilesRecursively adds does not depend on the list it is
    given: listing one directory and then another into the same list
    gives the listing of the first followed by the listing of the
    second. *)
Theorem GetFilesRecursively_listings_concatenate (fuel : nat)
    (first second : string) (found1 found2 : FilesList) :
  GetFilesRecursively fuel first fs [] = Some (Ret found1) ->
  GetFilesRecursively fuel second fs [] = Some (Ret found2) ->
  forall filesList,
    GetFilesRecursively fuel first fs filesList = Some (Ret (filesList ++ found1)) /\
    GetFilesRecursively fuel second fs (filesList ++ found1)
    = Some (Ret (filesList ++ found1 ++ found2)).
Proof.
  intros H1 H2 filesList. split.
  - now rewrite GetFilesRecursively_accumulates, H1.
  - rewrite GetFilesRecursively_accumulates, H2. simpl. now rewrite app_assoc.
Qed.

End Accumulation.

Lemma GetFilesRecursively_listings_concatenate_sample :
  GetFilesRecursively (impl := ListFS.impl) 2 "root/sub" ListFS.sample_tree
    (["seen"] ++ ["root/a.txt"; "root/sub/b.txt"])
  = Some (Ret (["seen"] ++ ["root/a.txt"; "root/sub/b.txt"] ++ ["root/sub/b.txt"])).
Proof.
  apply (GetFilesRecursively_listings_concatenate (impl := ListFS.impl)
           ListFS.sample_tree 2 "root" "root/sub"
           ["root/a.txt"; "root/sub/b.txt"] ["root/sub/b.txt"] eq_refl eq_refl ["seen"]).
Defined.
